(** * Resume-Generator: the Markdown-to-Word renderer of [convert_resume.py]

    A shallow embedding of the renderer and of its inline formatter, and the
    properties of the specification checked against it.

    Conventions of the embedding.
    - A Python [str] is a [list ascii]; the development covers the characters
      with code points below 256.  Literals are written [py "..."].
    - The [python-docx] document is the ordered list of its body blocks; a
      paragraph object handed out by [doc.add_paragraph] is the index of the
      block in that list, so that later mutations through the reference are
      updates by index.
    - Exceptions are explicit: a computation returns [Ok v] or [Raise e].
    - python-docx keeps the text of a run in XML, which refuses the control
      characters: the model describes the calls that put text into the
      document on text without them ([safe_text]), and the properties that
      state what such a call returns assume it of the text. *)

From Stdlib Require Import Ascii String.
From stdpp Require Import base option list strings gmap.

Open Scope list_scope.
Open Scope nat_scope.

Abbreviation str := (list ascii).

(** [py "text"] is the Python literal ["text"]. *)
Definition py (s : string) : str := list_ascii_of_string s.

(* ================================================================== *)
(** * Python string primitives *)
(* ================================================================== *)

Module PyStr.

Definition ch (n : nat) : ascii := ascii_of_nat n.

Definition eqc (a b : ascii) : bool := Ascii.eqb a b.

(** [str.isspace] on one character (code points below 256): TAB, LF, VT,
    FF, CR, the separators FS GS RS US, space, NEL and NBSP.  The regular
    expression class [\s] of a [str] pattern is the same set. *)
Definition is_space (c : ascii) : bool :=
  let n := nat_of_ascii c in
  ((9 <=? n) && (n <=? 13)) || ((28 <=? n) && (n <=? 32))
  || (n =? 133) || (n =? 160).

Definition is_newline (c : ascii) : bool := nat_of_ascii c =? 10.

Fixpoint drop_while {A} (f : A -> bool) (s : list A) : list A :=
  match s with
  | [] => []
  | c :: s' => if f c then drop_while f s' else s
  end.

Fixpoint take_while {A} (f : A -> bool) (s : list A) : list A :=
  match s with
  | [] => []
  | c :: s' => if f c then c :: take_while f s' else []
  end.

Definition lstrip_by (f : ascii -> bool) (s : str) : str := drop_while f s.
Definition rstrip_by (f : ascii -> bool) (s : str) : str :=
  rev (drop_while f (rev s)).

(** [s.strip()] *)
Definition strip (s : str) : str := rstrip_by is_space (lstrip_by is_space s).

(** [s.strip("|")] *)
Definition strip_char (c : ascii) (s : str) : str :=
  rstrip_by (eqc c) (lstrip_by (eqc c) s).

(** [s.startswith(p)] *)
Fixpoint startswith (p s : str) : bool :=
  match p, s with
  | [], _ => true
  | _ :: _, [] => false
  | a :: p', b :: s' => eqc a b && startswith p' s'
  end.

(** [a == b] on strings *)
Fixpoint eqs (a b : str) : bool :=
  match a, b with
  | [], [] => true
  | x :: a', y :: b' => eqc x y && eqs a' b'
  | _, _ => false
  end.

(** [s[a:b]] for [0 <= a], [0 <= b] *)
Definition slice (s : str) (a b : nat) : str := take (b - a) (drop a s).

(** [s.split(sep)] for a one-character separator: the fields between the
    occurrences of [sep]; always at least one field. *)
Fixpoint split_on (sep : ascii) (s : str) : list str :=
  match s with
  | [] => [[]]
  | c :: s' =>
      if eqc sep c then [] :: split_on sep s'
      else match split_on sep s' with
           | f :: fs => (c :: f) :: fs
           | [] => [[c]]
           end
  end.

(** [c.upper()] restricted to what a comparison with an ASCII literal can
    see: [a]..[z] go to [A]..[Z].  The other cased characters below 256
    are sent by Python to characters outside [A]..[Z] (or, for the sharp s,
    to two [S], which no literal compared here contains), so leaving them
    in place gives the same result for that comparison. *)
Definition upper_char (c : ascii) : ascii :=
  let n := nat_of_ascii c in
  if (97 <=? n) && (n <=? 122) then ascii_of_nat (n - 32) else c.

Definition upper (s : str) : str := map upper_char s.

End PyStr.

Import PyStr.

(* ================================================================== *)
(** * The document model of python-docx, as far as the renderer uses it *)
(* ================================================================== *)

Inductive style := Heading1 | Heading2 | Heading3 | Normal | ListBullet | Header.

Inductive alignment := CENTER.

Inductive rgb := RGBColor (r g b : nat).

(** What a paragraph holds: runs ([paragraph.add_run], with the attributes
    the renderer sets on them) and hyperlink elements ([add_hyperlink]).
    A hyperlink is not a run: [paragraph.runs] does not list it. *)
Inductive inline :=
| Run (text : str) (bold italic : bool) (font : option str) (color : option rgb)
| Hyperlink (text url : str).

Record paragraph := Paragraph {
  p_style : option style;
  p_alignment : option alignment;
  p_keep_with_next : bool;
  p_bottom_border : bool;
  p_content : list inline
}.

(** A table cell: its shading ([w:shd] fill) and its one paragraph. *)
Record cell := Cell {
  c_fill : option str;
  c_par : paragraph
}.

Record table := Table {
  t_grid : bool;               (* style 'Table Grid' *)
  t_cols : nat;
  t_rows : list (list cell)
}.

Inductive block :=
| Par (p : paragraph)
| Tbl (t : table).

Abbreviation document := (list block).

Definition empty_paragraph (st : option style) : paragraph :=
  Paragraph st None false false [].

(** The text that a run can hold as it is written: [paragraph.add_run(t)]
    and the assignment [new_run.text = t] of [add_hyperlink] raise ValueError
    when [t] has a character that XML refuses (NUL and the control characters
    below 32 other than TAB, LF and CR); the target of a link with such a
    character makes [doc.save] raise; and a CR in [t] is stored as a line
    break, so that the text read back differs.  The characters that are
    kept as they are: TAB, LF and everything from the space on. *)
Definition safe_char (c : ascii) : bool :=
  let n := nat_of_ascii c in (n =? 9) || (n =? 10) || (32 <=? n).

Definition safe_text (t : str) : bool := forallb safe_char t.

(** [paragraph.add_run(t)] with the attributes set on the run, for a text
    that is [safe_text]. *)
Definition add_run (p : paragraph) (r : inline) : paragraph :=
  Paragraph (p_style p) (p_alignment p) (p_keep_with_next p)
            (p_bottom_border p) (p_content p ++ [r]).

Definition set_alignment (a : alignment) (p : paragraph) : paragraph :=
  Paragraph (p_style p) (Some a) (p_keep_with_next p)
            (p_bottom_border p) (p_content p).

Definition set_keep_with_next (p : paragraph) : paragraph :=
  Paragraph (p_style p) (p_alignment p) true
            (p_bottom_border p) (p_content p).

Definition set_bottom_border (p : paragraph) : paragraph :=
  Paragraph (p_style p) (p_alignment p) (p_keep_with_next p)
            true (p_content p).

Definition Aptos : str := py "Aptos".

(** [run = paragraph.add_run(t); run.font.name = "Aptos"] and its bold and
    italic variants. *)
Definition plain_run (t : str) : inline := Run t false false (Some Aptos) None.
Definition bold_run (t : str) : inline := Run t true false (Some Aptos) None.
Definition italic_run (t : str) : inline := Run t false true (Some Aptos) None.

(** [add_hyperlink(paragraph, text, url)], for a text and a target that are
    [safe_text]. *)
Definition add_hyperlink (p : paragraph) (text url : str) : paragraph :=
  add_run p (Hyperlink text url).

(* ================================================================== *)
(** * The inline pattern
    [(\*\*(?P<bold>.+?)\*\*|\*(?P<italic>.+?)\*|\[(?P<link_text>[^\]]+)\]\((?P<link_url>[^)]+)\))] *)
(* ================================================================== *)

Module Pattern.

(** The named groups of one match. *)
Record groups := Groups {
  g_bold : option str;
  g_italic : option str;
  g_link_text : option str;
  g_link_url : option str
}.

(** A match object: [match.start()], [match.end()] and the groups. *)
Record mobj := Match {
  m_start : nat;
  m_end : nat;
  m_groups : groups
}.

(** [.+?] followed by the literal [close]: the lazy quantifier takes one
    character that is not a newline, then tries [close], and takes one
    more character each time [close] fails.  The result is the number of
    characters taken. *)
Fixpoint dot_plus_lazy (close : str) (r : str) : option nat :=
  match r with
  | [] => None
  | c :: r' =>
      if is_newline c then None
      else if startswith close r' then Some 1
      else S <$> dot_plus_lazy close r'
  end.

(** [[^x]+] followed by the literal [close], whose first character is [x]:
    the greedy class takes the longest run without [x]; giving characters
    back cannot help, since the character after a shorter run is not [x]. *)
Definition not_char_plus (x : ascii) (close : str) (r : str) : option nat :=
  let t := take_while (fun c => negb (eqc x c)) r in
  match t with
  | [] => None
  | _ :: _ =>
      if startswith close (drop (length t) r) then Some (length t) else None
  end.

(** [\*\*(?P<bold>.+?)\*\*] at the start of [s] *)
Definition bold_at (s : str) : option (groups * nat) :=
  if startswith (py "**") s then
    let r := drop 2 s in
    match dot_plus_lazy (py "**") r with
    | Some k => Some (Groups (Some (take k r)) None None None, 2 + k + 2)
    | None => None
    end
  else None.

(** [\*(?P<italic>.+?)\*] at the start of [s] *)
Definition italic_at (s : str) : option (groups * nat) :=
  if startswith (py "*") s then
    let r := drop 1 s in
    match dot_plus_lazy (py "*") r with
    | Some k => Some (Groups None (Some (take k r)) None None, 1 + k + 1)
    | None => None
    end
  else None.

(** [\[(?P<link_text>[^\]]+)\]\((?P<link_url>[^)]+)\)] at the start of [s] *)
Definition link_at (s : str) : option (groups * nat) :=
  if startswith (py "[") s then
    let r := drop 1 s in
    match not_char_plus "]"%char (py "](") r with
    | Some k =>
        let r2 := drop (k + 2) r in
        match not_char_plus ")"%char (py ")") r2 with
        | Some j =>
            Some (Groups None None (Some (take k r)) (Some (take j r2)),
                  1 + k + 2 + j + 1)
        | None => None
        end
    | None => None
    end
  else None.

(** The alternation at one position: the first alternative that matches. *)
Definition pattern_at (s : str) : option (groups * nat) :=
  match bold_at s with
  | Some m => Some m
  | None =>
      match italic_at s with
      | Some m => Some m
      | None => link_at s
      end
  end.

(** [pattern.finditer(text)]: the scan tries the pattern at each position
    from left to right; after a match (never empty here) it resumes at the
    end of the match.  [s] is the text from position [i] on, and [skip]
    counts the characters of the current match still to pass. *)
Fixpoint finditer_aux (s : str) (i skip : nat) : list mobj :=
  match s with
  | [] => []
  | _ :: s' =>
      match skip with
      | S k => finditer_aux s' (S i) k
      | O =>
          match pattern_at s with
          | Some (g, len) => Match i (i + len) g :: finditer_aux s' (S i) (len - 1)
          | None => finditer_aux s' (S i) 0
          end
      end
  end.

Definition finditer (text : str) : list mobj := finditer_aux text 0 0.

(** [match.group(name)] and its truth value in an [if]. *)
Definition group (o : option str) : str := default [] o.
Definition truthy (o : option str) : bool :=
  match o with Some (_ :: _) => true | _ => false end.

End Pattern.

Import Pattern.

(* ================================================================== *)
(** * [insert_markdown_text] *)
(* ================================================================== *)

(** One iteration of [for match in pattern.finditer(markdown_text)]. *)
Definition insert_match (markdown_text : str) (m : mobj) (pos : nat)
    (para : paragraph) : paragraph :=
  let para :=
    if pos <? m_start m
    then add_run para (plain_run (slice markdown_text pos (m_start m)))
    else para in
  let g := m_groups m in
  if truthy (g_bold g) then add_run para (bold_run (group (g_bold g)))
  else if truthy (g_italic g) then add_run para (italic_run (group (g_italic g)))
  else if truthy (g_link_text g)
       then add_hyperlink para (group (g_link_text g)) (group (g_link_url g))
  else para.

(** The [for] loop, threading the paragraph and [pos]. *)
Fixpoint insert_loop (markdown_text : str) (ms : list mobj) (pos : nat)
    (para : paragraph) : paragraph * nat :=
  match ms with
  | [] => (para, pos)
  | m :: ms' =>
      insert_loop markdown_text ms' (m_end m)
                  (insert_match markdown_text m pos para)
  end.

Definition insert_markdown_text (para : paragraph) (markdown_text : str)
    : paragraph :=
  let '(para, pos) :=
    insert_loop markdown_text (finditer markdown_text) 0 para in
  if pos <? length markdown_text
  then add_run para (plain_run (drop pos markdown_text))
  else para.

Definition insert_formatted_text (para : paragraph) (text : str) : paragraph :=
  insert_markdown_text para text.

(** The spans the formatter produces for a line: what it adds to an empty
    paragraph. *)
Definition spans (line : str) : list inline :=
  p_content (insert_markdown_text (empty_paragraph None) line).

(** The text content of a span, ignoring style (a link's display text). *)
Definition inline_text (x : inline) : str :=
  match x with
  | Run t _ _ _ _ => t
  | Hyperlink t _ => t
  end.

Definition visible_text (xs : list inline) : str := concat (map inline_text xs).

(* ================================================================== *)
(** * Exceptions *)
(* ================================================================== *)

Inductive exn :=
| IndexError
| FileNotFoundError (path : str)
| SystemExit (msg : str).

Inductive result (A : Type) :=
| Ok (a : A)
| Raise (e : exn).
Arguments Ok {A} a.
Arguments Raise {A} e.

#[global] Instance result_ret : MRet result := fun A a => Ok a.
#[global] Instance result_bind : MBind result := fun A B f m =>
  match m with
  | Ok a => f a
  | Raise e => Raise e
  end.

(* ================================================================== *)
(** * Paragraph objects inside the document *)
(* ================================================================== *)

(** [p = doc.add_paragraph(style=st)]: the new paragraph goes to the end of
    the body; [p] is its position. *)
Definition doc_add_paragraph (doc : document) (st : option style)
    : document * nat :=
  (doc ++ [Par (empty_paragraph st)], length doc).

Definition on_paragraph (f : paragraph -> paragraph) (b : block) : block :=
  match b with
  | Par p => Par (f p)
  | Tbl t => Tbl t
  end.

(** A mutation of the paragraph object [p] of [doc]. *)
Definition doc_update (doc : document) (p : nat) (f : paragraph -> paragraph)
    : document :=
  alter (on_paragraph f) p doc.

(** [add_horizontal_line(doc)] *)
Definition add_horizontal_line (doc : document) : document :=
  let '(doc, p) := doc_add_paragraph doc None in
  doc_update doc p set_bottom_border.

(* ================================================================== *)
(** * [try_process_heading] *)
(* ================================================================== *)

Definition LF : ascii := ch 10.

(** [re.match] of the heading pattern on [line]: group 1 is [#{1,6}], then
    [\s+], then group 2 is any run of characters other than newline, then
    [$].  The result is the length of group 1 and group 2.
    All three quantifiers are greedy and the first complete attempt is the
    one with the longest runs: with fewer [#] the next character is a [#],
    not a space; with a shorter [\s+] or [.*] the end test [$] is tried
    earlier in the line, where it fails.  [$] holds at the end of the line
    or before a final newline. *)
Definition heading_match (line : str) : option (nat * str) :=
  let h := length (take_while (eqc "#"%char) line) in
  if (1 <=? h) && (h <=? 6) then
    let r := drop h line in
    let ws := take_while is_space r in
    match ws with
    | [] => None
    | _ :: _ =>
        let rest := drop (length ws) r in
        let body := take_while (fun c => negb (is_newline c)) rest in
        let tail := drop (length body) rest in
        if eqs tail [] || eqs tail [LF] then Some (h, body) else None
    end
  else None.

Definition heading_style (level : nat) : style :=
  if level =? 1 then Heading1
  else if level =? 2 then Heading2
  else if level =? 3 then Heading3
  else Normal.

(** Returns the document and, for [(True, level, text)], [Some (level, text)];
    [None] stands for [(False, None, None)]. *)
Definition try_process_heading (doc : document) (line : str) (header_block : bool)
    : document * option (nat * str) :=
  match heading_match line with
  | Some (level, g2) =>
      let text := strip g2 in
      let '(doc, p) := doc_add_paragraph doc (Some (heading_style level)) in
      let doc := if header_block then doc_update doc p (set_alignment CENTER) else doc in
      let doc := doc_update doc p (fun q => insert_formatted_text q text) in
      (doc, Some (level, text))
  | None => (doc, None)
  end.

(* ================================================================== *)
(** * [add_job_block_to_doc] *)
(* ================================================================== *)

(** The [for line in block_lines] loop; [paragraphs] collects the paragraph
    objects. *)
Fixpoint job_block_loop (doc : document) (block_lines : list str)
    (paragraphs : list nat) : document * list nat :=
  match block_lines with
  | [] => (doc, paragraphs)
  | line :: block_lines' =>
      let line := strip line in
      match line with
      | [] => job_block_loop doc block_lines' paragraphs
      | _ :: _ =>
          let '(doc, p) :=
            if startswith (py "- ") line then
              let '(doc, p) := doc_add_paragraph doc (Some ListBullet) in
              (doc_update doc p (fun q => insert_formatted_text q (strip (drop 2 line))), p)
            else
              let '(doc, p) := doc_add_paragraph doc None in
              (doc_update doc p (fun q => insert_formatted_text q line), p) in
          job_block_loop doc block_lines' (paragraphs ++ [p])
      end
  end.

Definition add_job_block_to_doc (doc : document) (block_lines : list str)
    : document :=
  let '(doc, paragraphs) := job_block_loop doc block_lines [] in
  (* for p in paragraphs[:-1]: p.paragraph_format.keep_with_next = True *)
  foldl (fun d p => doc_update d p set_keep_with_next) doc (removelast paragraphs).

(* ================================================================== *)
(** * [add_table_to_doc] *)
(* ================================================================== *)

Definition pastel_green : str := py "C6EFCE".
Definition pastel_yellow : str := py "FFFACD".
Definition dark_green : rgb := RGBColor 0 97 0.      (* 0x00, 0x61, 0x00 *)
Definition black : rgb := RGBColor 0 0 0.

Definition empty_cell : cell := Cell None (empty_paragraph None).

(** [doc.add_table(rows, cols)] with [table.style = 'Table Grid'] *)
Definition new_table (rows cols : nat) : table :=
  Table true cols (replicate rows (replicate cols empty_cell)).

(** [[cell.strip() for cell in line.strip("|").split("|")]] *)
Definition cells_of_line (line : str) : list str :=
  map strip (split_on "|"%char (strip_char "|"%char line)).

(** [run.font.color.rgb = color; run.font.name = "Aptos"] for a run; a
    hyperlink element is not among [paragraph.runs]. *)
Definition color_run (color : rgb) (x : inline) : inline :=
  match x with
  | Run t b i _ _ => Run t b i (Some Aptos) (Some color)
  | Hyperlink t u => Hyperlink t u
  end.

(** [set_cell_background(cell, color_hex)] on a cell without shading, as
    [doc.add_table] makes them: the [w:shd] element that is appended is then
    the only one of the cell. *)
Definition set_cell_background (c : cell) (color_hex : str) : cell :=
  Cell (Some color_hex) (c_par c).

(** The body of the loops over the cells of a row:
    [p = c.paragraphs[0]], [p.text] set to the empty string (which leaves
    one empty run),
    [insert_formatted_text(p, text)], [set_cell_background(c, fill)], then
    the colour and font of every run. *)
Definition write_cell (fill : str) (color : rgb) (text : str) (c : cell) : cell :=
  let p := c_par c in
  let p := Paragraph (p_style p) (p_alignment p) (p_keep_with_next p)
                     (p_bottom_border p) [Run [] false false None None] in
  let p := insert_formatted_text p text in
  let c := set_cell_background (Cell (c_fill c) p) fill in
  let p := c_par c in
  let p := Paragraph (p_style p) (p_alignment p) (p_keep_with_next p)
                     (p_bottom_border p) (map (color_run color) (p_content p)) in
  Cell (c_fill c) p.

(** [for j, text in enumerate(texts): ... row_cells[j] ...]; indexing past
    the end of [row_cells] raises. *)
Fixpoint write_row (fill : str) (color : rgb) (texts : list str) (j : nat)
    (row_cells : list cell) : result (list cell) :=
  match texts with
  | [] => Ok row_cells
  | text :: texts' =>
      match row_cells !! j with
      | None => Raise IndexError
      | Some c =>
          write_row fill color texts' (S j)
                    (<[j := write_cell fill color text c]> row_cells)
      end
  end.

(** [for i, line in enumerate(data_lines): ... table.rows[i+1].cells ...] *)
Fixpoint write_data_rows (data_lines : list str) (i : nat)
    (rows : list (list cell)) : result (list (list cell)) :=
  match data_lines with
  | [] => Ok rows
  | line :: data_lines' =>
      match rows !! (i + 1) with
      | None => Raise IndexError
      | Some row_cells =>
          row_cells ← write_row pastel_yellow black (cells_of_line line) 0 row_cells;
          write_data_rows data_lines' (S i) (<[i + 1 := row_cells]> rows)
      end
  end.

(** The table is filled here before it is put at the end of the body; the
    source fills it in place after [doc.add_table], which gives the same
    document, and no document at all when an index raises. *)
Definition add_table_to_doc (doc : document) (table_lines : list str)
    : result document :=
  if length table_lines <? 2 then Ok doc
  else
    match table_lines with
    | [] => Raise IndexError
    | header_line :: _ =>
        let header_cells_text := cells_of_line header_line in
        let data_lines := drop 2 table_lines in
        let t := new_table (length data_lines + 1) (length header_cells_text) in
        match t_rows t !! 0 with
        | None => Raise IndexError
        | Some hdr_cells =>
            hdr_cells ← write_row pastel_green dark_green header_cells_text 0 hdr_cells;
            rows ← write_data_rows data_lines 0 (<[0 := hdr_cells]> (t_rows t));
            Ok (doc ++ [Tbl (Table (t_grid t) (t_cols t) rows)])
        end
    end.

(* ================================================================== *)
(** * [convert_md_to_docx]: the rendering of the lines *)
(* ================================================================== *)

(** [line.strip() == "---"] *)
Definition is_rule (line : str) : bool := eqs (strip line) (py "---").

(** [stripped.startswith("|")] *)
Definition is_table_row (stripped : str) : bool := startswith (py "|") stripped.

(** The loop over [header_block_lines]. *)
Fixpoint process_header_block (doc : document) (header_block_lines : list str)
    : document :=
  match header_block_lines with
  | [] => doc
  | line :: rest =>
      let stripped := strip line in
      match stripped with
      | [] => process_header_block doc rest
      | _ :: _ =>
          let '(doc, h) := try_process_heading doc stripped true in
          let doc :=
            match h with
            | Some _ => doc
            | None =>
                let '(doc, p) := doc_add_paragraph doc None in
                let doc := doc_update doc p (set_alignment CENTER) in
                doc_update doc p (fun q => insert_formatted_text q stripped)
            end in
          process_header_block doc rest
      end
  end.

(** [while i < len(lines) and lines[i].strip() == "---"]: the rules that end
    the header block; returns the lines that remain. *)
Fixpoint process_leading_rules (doc : document) (lines : list str)
    : document * list str :=
  match lines with
  | [] => (doc, [])
  | line :: rest =>
      if is_rule line then process_leading_rules (add_horizontal_line doc) rest
      else (doc, lines)
  end.

(** The variables of the main loop. *)
Record state := State {
  st_doc : document;
  in_employment : bool;
  current_job_block : list str;
  table_lines : list str
}.

(** [if in_employment and current_job_block: add_job_block_to_doc(...);
    current_job_block = []] *)
Definition flush_job_block (doc : document) (in_emp : bool) (job : list str)
    : document * list str :=
  match in_emp, job with
  | true, _ :: _ => (add_job_block_to_doc doc job, [])
  | _, _ => (doc, job)
  end.

(** One iteration of [while i < len(lines)], at [line = lines[i]]; [rest] is
    [lines[i+1:]], whose head the table branch looks at. *)
Definition process_line (line : str) (rest : list str) (s : state) : result state :=
  let doc := st_doc s in
  let stripped := strip line in
  if eqs stripped (py "---") then
    let '(doc, job) := flush_job_block doc (in_employment s) (current_job_block s) in
    Ok (State (add_horizontal_line doc) (in_employment s) job (table_lines s))
  else
    let '(doc, h) := try_process_heading doc stripped false in
    match h with
    | Some (level, heading_text) =>
        let '(doc, job) := flush_job_block doc (in_employment s) (current_job_block s) in
        let in_emp := (level =? 2) && eqs (upper heading_text) (py "EMPLOYMENT HISTORY") in
        Ok (State doc in_emp job (table_lines s))
    | None =>
        if is_table_row stripped then
          let tl := table_lines s ++ [line] in
          let flush :=
            match rest with
            | next :: _ => negb (is_table_row (strip next))
            | [] => true
            end in
          if flush then
            doc ← add_table_to_doc doc tl;
            Ok (State doc (in_employment s) (current_job_block s) [])
          else Ok (State doc (in_employment s) (current_job_block s) tl)
        else if in_employment s then
          Ok (State doc true (current_job_block s ++ [line]) (table_lines s))
        else
          let doc :=
            if startswith (py "- ") stripped then
              let '(doc, p) := doc_add_paragraph doc (Some ListBullet) in
              doc_update doc p (fun q => insert_formatted_text q (strip (drop 2 stripped)))
            else
              let '(doc, p) := doc_add_paragraph doc None in
              doc_update doc p (fun q => insert_formatted_text q line) in
          Ok (State doc false (current_job_block s) (table_lines s))
    end.

Fixpoint process_remaining (lines : list str) (s : state) : result state :=
  match lines with
  | [] => Ok s
  | line :: rest =>
      s ← process_line line rest s;
      process_remaining rest s
  end.

(** "Flush any remaining job block or table." *)
Definition flush_remaining (s : state) : result document :=
  let doc :=
    match current_job_block s with
    | [] => st_doc s
    | _ :: _ => add_job_block_to_doc (st_doc s) (current_job_block s)
    end in
  match table_lines s with
  | [] => Ok doc
  | _ :: _ => add_table_to_doc doc (table_lines s)
  end.

(** The body of the document from the lines of the Markdown text: the
    statements of [convert_md_to_docx] from "Split Markdown into lines" to
    the last flush, on a document whose body is still empty. *)
Definition render_lines (lines : list str) : result document :=
  let header_block_lines := take_while (fun l => negb (is_rule l)) lines in
  let lines := drop (length header_block_lines) lines in
  let doc := process_header_block [] header_block_lines in
  let '(doc, lines) := process_leading_rules doc lines in
  s ← process_remaining lines (State doc false [] []);
  flush_remaining s.

(* ================================================================== *)
(** * [convert_md_to_docx]: files, page set-up and the saved document *)
(* ================================================================== *)

(** Lengths are in English Metric Units, as python-docx stores them:
    [Inches(1) = 914400], [Pt(1) = 12700]. *)
Record settings := Settings {
  page_width : N;
  page_height : N;
  left_margin : N;
  right_margin : N;
  top_margin : N;
  bottom_margin : N;
  font_name : str;
  font_size : N;
  line_spacing : N;
  space_before : N;
  space_after : N
}.

Definition resume_settings : settings :=
  Settings 7772400 10058400          (* Inches(8.5), Inches(11) *)
           457200 457200 457200 457200   (* Inches(0.5) on all sides *)
           Aptos 139700              (* Pt(11) *)
           1 0 0.

(** The document object that is saved: the page set-up, the paragraph of the
    page header and the body. *)
Record docx := Docx {
  d_settings : settings;
  d_header : paragraph;
  d_body : document
}.

Inductive fdata :=
| TextFile (content : str)
| DocxFile (d : docx).

(** What the function does to its surroundings, in order. *)
Inductive event :=
| EvMakedirs (path : str)
| EvOpen (path : str)
| EvSave (path : str)
| EvPrint (msg : str).

Record world := World {
  w_files : gmap str fdata;
  w_dirs : gset str;
  w_log : list event
}.

(** The functions of [os.path] and the value of [__file__]; they depend on
    the platform and on the working directory, and are taken as given. *)
Record environ := Environ {
  isabs : str -> bool;
  abspath : str -> str;
  join : str -> str -> str;
  basename : str -> str;
  dirname : str -> str;
  script_file : str
}.

(** [os.path.exists(path)] *)
Definition path_exists (w : world) (path : str) : bool :=
  bool_decide (path ∈ w_dirs w) || bool_decide (is_Some (w_files w !! path)).

(** [os.makedirs(path)] *)
Definition makedirs (w : world) (path : str) : world :=
  World (w_files w) ({[path]} ∪ w_dirs w) (w_log w ++ [EvMakedirs path]).

(** [if not os.path.exists(path): os.makedirs(path)] *)
Definition ensure_dir (w : world) (path : str) : world :=
  if path_exists w path then w else makedirs w path.

(** [with open(path, 'r', encoding='utf-8') as f: f.read()] *)
Definition open_read (w : world) (path : str) : world * result str :=
  let w' := World (w_files w) (w_dirs w) (w_log w ++ [EvOpen path]) in
  match w_files w !! path with
  | Some (TextFile content) => (w', Ok content)
  | _ => (w', Raise (FileNotFoundError path))
  end.

(** The folder of [path] is there: [path] is a bare file name, which goes
    to the working directory, or its folder is a directory. *)
Definition folder_exists (E : environ) (w : world) (path : str) : bool :=
  match dirname E path with
  | [] => true
  | (_ :: _) as folder => bool_decide (folder ∈ w_dirs w)
  end.

(** [doc.save(path)]: the file is opened for writing, which fails with
    FileNotFoundError when the folder of [path] does not exist; nothing is
    written then.  (When a file has the name of that folder the error is
    another one, which depends on the platform; the properties leave that
    case out.) *)
Definition save (E : environ) (w : world) (path : str) (d : docx)
    : world * result unit :=
  let log := w_log w ++ [EvSave path] in
  if folder_exists E w path
  then (World (<[path := DocxFile d]> (w_files w)) (w_dirs w) log, Ok tt)
  else (World (w_files w) (w_dirs w) log, Raise (FileNotFoundError path)).

Definition print (w : world) (msg : str) : world :=
  World (w_files w) (w_dirs w) (w_log w ++ [EvPrint msg]).

(** [str(e)] for the exception of a failed [open]. *)
Definition exn_text (e : exn) : str :=
  match e with
  | FileNotFoundError path =>
      py "[Errno 2] No such file or directory: '" ++ path ++ py "'"
  | IndexError => py "list index out of range"
  | SystemExit msg => msg
  end.

(** [text.splitlines()]: the line boundaries below code point 256 are LF,
    VT, FF, CR, CR LF, FS, GS, RS and NEL; no empty last line. *)
Definition is_linebreak (c : ascii) : bool :=
  let n := nat_of_ascii c in
  ((10 <=? n) && (n <=? 13)) || ((28 <=? n) && (n <=? 30)) || (n =? 133).

Fixpoint splitlines_aux (s : str) (cur : str) : list str :=
  match s with
  | [] => match cur with [] => [] | _ :: _ => [cur] end
  | c :: s' =>
      if is_linebreak c then
        match s' with
        | d :: s'' =>
            if (nat_of_ascii c =? 13) && (nat_of_ascii d =? 10)
            then cur :: splitlines_aux s'' []
            else cur :: splitlines_aux s' []
        | [] => cur :: splitlines_aux s' []
        end
      else splitlines_aux s' (cur ++ [c])
  end.

Definition splitlines (s : str) : list str := splitlines_aux s [].

(** ["\n".join(lines)] *)
Fixpoint join_lines (lines : list str) : str :=
  match lines with
  | [] => []
  | [l] => l
  | l :: ls => l ++ LF :: join_lines ls
  end.

(** "Remove code fence markers if present at the top and bottom." *)
Definition remove_fences (lines : list str) : list str :=
  let lines :=
    match lines with
    | first :: others => if eqs (strip first) (py "```markdown") then others else lines
    | [] => lines
    end in
  match lines with
  | _ :: _ => if eqs (strip (List.last lines [])) (py "```") then removelast lines else lines
  | [] => lines
  end.

(** "Determine the output file location." *)
Definition output_location (E : environ) (docx_file : str) (output_path : option str)
    (w : world) : world * str :=
  match output_path with
  | Some ((_ :: _) as output_path) =>
      let output_path :=
        if isabs E output_path then output_path else abspath E output_path in
      let w := ensure_dir w output_path in
      (w, join E output_path (basename E docx_file))
  | _ =>
      match dirname E docx_file with
      | [] =>
          let exported_folder := join E (dirname E (script_file E)) (py "exported_resumes") in
          let w := ensure_dir w exported_folder in
          (w, join E exported_folder docx_file)
      | _ :: _ => (w, abspath E docx_file)
      end
  end.

(** [os.path.join(os.path.dirname(__file__), "settings", "header.txt")] *)
Definition header_path (E : environ) : str :=
  join E (join E (dirname E (script_file E)) (py "settings")) (py "header.txt").

Definition convert_md_to_docx (E : environ) (md_file docx_file : str)
    (output_path : option str) (w : world) : world * result unit :=
  let '(w, docx_file) := output_location E docx_file output_path w in
  let '(w, r) := open_read w md_file in
  match r with
  | Raise e => (w, Raise e)
  | Ok md_text =>
      let md_text := join_lines (remove_fences (splitlines md_text)) in
      let '(w, r) := open_read w (header_path E) in
      match r with
      | Raise e =>
          (w, Raise (SystemExit (py "Error reading header file at " ++ header_path E
                                 ++ py ": " ++ exn_text e)))
      | Ok content =>
          let header_text := strip content in
          (* hp = header.paragraphs[0]; hp.clear(): the paragraph of the
             header of a new document, which has the style Header *)
          let hp := insert_markdown_text (empty_paragraph (Some Header)) header_text in
          let hp := set_alignment CENTER hp in
          match render_lines (splitlines md_text) with
          | Raise e => (w, Raise e)
          | Ok body =>
              let '(w, r) := save E w docx_file (Docx resume_settings hp body) in
              match r with
              | Raise e => (w, Raise e)
              | Ok _ =>
                  let w := print w (py "Saved formatted resume to " ++ docx_file) in
                  (w, Ok tt)
              end
          end
      end
  end.

(* ================================================================== *)
(** * Definitions used to state the properties *)
(* ================================================================== *)

(** A line cut into pieces: text that is kept and markup that is dropped. *)
Inductive piece :=
| Kept (t : str)
| Delimiter (d : str).

Definition piece_source (p : piece) : str :=
  match p with Kept t => t | Delimiter d => d end.

Definition piece_kept (p : piece) : str :=
  match p with Kept t => t | Delimiter _ => [] end.

(** The line the pieces were cut from, and what is left of it once the
    delimiters are removed. *)
Definition source_of (ps : list piece) : str := concat (map piece_source ps).
Definition kept_of (ps : list piece) : str := concat (map piece_kept ps).

(** The pieces of the line behind one span: a bold run stands for
    [**text**], an italic run for [*text*], a link for [[text](url)]. *)
Definition pieces (x : inline) : list piece :=
  match x with
  | Run t true _ _ _ => [Delimiter (py "**"); Kept t; Delimiter (py "**")]
  | Run t false true _ _ => [Delimiter (py "*"); Kept t; Delimiter (py "*")]
  | Run t false false _ _ => [Kept t]
  | Hyperlink t u => [Delimiter (py "["); Kept t; Delimiter (py "](" ++ u ++ py ")")]
  end.

(** Delimiters that are punctuation only: the [**] and [*] of a pair and the
    brackets and parentheses of a link. *)
Definition punctuation (p : piece) : Prop :=
  match p with
  | Kept _ => True
  | Delimiter d => d ∈ [py "**"; py "*"; py "["; py "]"; py "("; py "]("; py ")"]
  end.

(** Delimiters as the formatter drops them: the target of a link goes with
    its closing punctuation. *)
Definition markup (p : piece) : Prop :=
  match p with
  | Kept _ => True
  | Delimiter d =>
      d = py "**" ∨ d = py "*" ∨ d = py "[" ∨ ∃ url, d = py "](" ++ url ++ py ")"
  end.

(** [out] is [line] with delimiters of the kind [allowed] removed: [line]
    can be cut into pieces whose delimiters are all of that kind and whose
    kept text is [out]. *)
Definition removes_only (allowed : piece -> Prop) (line out : str) : Prop :=
  ∃ ps, source_of ps = line ∧ Forall allowed ps ∧ kept_of ps = out.

(** The span that one match contributes, following the [if]/[elif] chain of
    [insert_markdown_text]. *)
Definition match_span (g : groups) : option inline :=
  if truthy (g_bold g) then Some (bold_run (group (g_bold g)))
  else if truthy (g_italic g) then Some (italic_run (group (g_italic g)))
  else if truthy (g_link_text g)
       then Some (Hyperlink (group (g_link_text g)) (group (g_link_url g)))
  else None.

(** What [insert_markdown_text] adds to the paragraph, as a list of spans:
    the spans of one iteration, of the whole loop, and of the text after the
    last match. *)
Definition extend (para : paragraph) (items : list inline) : paragraph :=
  Paragraph (p_style para) (p_alignment para) (p_keep_with_next para)
            (p_bottom_border para) (p_content para ++ items).

Definition match_items (text : str) (m : mobj) (pos : nat) : list inline :=
  (if pos <? m_start m then [plain_run (slice text pos (m_start m))] else [])
  ++ match match_span (m_groups m) with Some x => [x] | None => [] end.

Fixpoint loop_items (text : str) (ms : list mobj) (pos : nat) : list inline :=
  match ms with
  | [] => []
  | m :: ms' => match_items text m pos ++ loop_items text ms' (m_end m)
  end.

Fixpoint loop_pos (ms : list mobj) (pos : nat) : nat :=
  match ms with
  | [] => pos
  | m :: ms' => loop_pos ms' (m_end m)
  end.

Definition tail_items (text : str) (pos : nat) : list inline :=
  if pos <? length text then [plain_run (drop pos text)] else [].

Definition format_spans (text : str) : list inline :=
  loop_items text (finditer text) 0
  ++ tail_items text (loop_pos (finditer text) 0).

(** [k] characters of [r] and then [close]. *)
Definition followed_by (k : nat) (close r : str) : Prop :=
  0 < k ∧ r = take k r ++ close ++ drop (k + length close) r ∧ k <= length r.

(** The nodes of a flushed job block.  [job_node keep line] is the node of one
    stripped line: a list item when the line starts with the bullet marker
    (marker removed), a paragraph otherwise.  In [job_nodes] every node but
    the last carries the keep-with-next hint. *)
Definition job_node (keep : bool) (line : str) : paragraph :=
  if startswith (py "- ") line
  then Paragraph (Some ListBullet) None keep false (spans (strip (drop 2 line)))
  else Paragraph None None keep false (spans line).

Fixpoint job_nodes (lines : list str) : list paragraph :=
  match lines with
  | [] => []
  | [line] => [job_node false line]
  | line :: lines' => job_node true line :: job_nodes lines'
  end.

(** The accumulated lines that are not empty once stripped, stripped. *)
Definition nonblank_lines (block_lines : list str) : list str :=
  filter (λ l, l ≠ []) (map strip block_lines).

(** The paragraph that [add_horizontal_line] adds: the Rule node. *)
Definition rule_paragraph : paragraph := Paragraph None None false true [].


(** A body paragraph holding one plain run, and a heading of level 2. *)
Definition text_paragraph (t : str) : block :=
  Par (Paragraph None None false false [plain_run t]).

Definition heading2 (t : str) : block :=
  Par (Paragraph (Some Heading2) None false false [plain_run t]).

(** A cell as [write_cell] leaves it when the text has no markup: the empty
    run left by the assignment to [p.text] and one run with the text, both
    coloured. *)
Definition shaded_cell (fill : str) (color : rgb) (t : str) : cell :=
  Cell (Some fill)
       (Paragraph None None false false
          [Run [] false false (Some Aptos) (Some color);
           Run t false false (Some Aptos) (Some color)]).

(** The paragraph of the page header, from the content of [header.txt]:
    style Header, centred, the spans of the stripped content. *)
Definition header_paragraph (content : str) : paragraph :=
  Paragraph (Some Header) (Some CENTER) false false (spans (strip content)).

(** The lines that are rendered, from the content of the Markdown file. *)
Definition markdown_lines (md_text : str) : list str :=
  splitlines (join_lines (remove_fences (splitlines md_text))).


(** An example of surroundings: POSIX-like paths, the script installed in
    [/opt/resume], a resume and the header file on disk. *)
Definition posix : environ :=
  Environ (λ p, startswith (py "/") p)
          (λ p, py "/home/ann/" ++ p)
          (λ a b, a ++ py "/" ++ b)
          (λ p, rev (take_while (λ c, negb (eqc "/" c)) (rev p)))
          (λ p, rev (drop 1 (drop_while (λ c, negb (eqc "/" c)) (rev p))))
          (py "/opt/resume/convert_resume.py").

Definition disk : world :=
  World (<[py "cv.md" := TextFile (py "# Ann" ++ [LF] ++ py "---" ++ [LF] ++ py "Text")]>
           (<[py "/opt/resume/settings/header.txt" := TextFile (py "Ann *CV*")]> ∅))
        ∅ [].

(** A row of a table of [cols] columns once [write_row] has written [texts]
    into it: one written cell for each text, and the cells the line does not
    supply left as [add_table] made them. *)
Definition written_row (fill : str) (color : rgb) (cols : nat) (texts : list str)
    : list cell :=
  map (λ t, write_cell fill color t empty_cell) texts
  ++ replicate (cols - length texts) empty_cell.

(** The line has at most [cols] cells. *)
Definition fits (cols : nat) (line : str) : bool :=
  length (cells_of_line line) <=? cols.

(** The spans of the inline formatter as a tagged union, the inline element
    that [insert_markdown_text] adds for each, and the markup that stands for
    it in a line. *)
Inductive span :=
| PlainText (t : str)
| Bold (t : str)
| Italic (t : str)
| Link (t url : str).

Definition render_span (x : span) : inline :=
  match x with
  | PlainText t => plain_run t
  | Bold t => bold_run t
  | Italic t => italic_run t
  | Link t url => Hyperlink t url
  end.

Definition span_markup (x : span) : str :=
  match x with
  | PlainText t => t
  | Bold t => py "**" ++ t ++ py "**"
  | Italic t => py "*" ++ t ++ py "*"
  | Link t url => py "[" ++ t ++ py "](" ++ url ++ py ")"
  end.

Definition line_of_spans (xs : list span) : str := concat (map span_markup xs).

(** A character no alternative of the pattern starts with, and a character
    that the content of a bold or italic span can hold without ending it. *)
Definition plain_char (c : ascii) : bool := negb (eqc "*" c) && negb (eqc "[" c).
Definition styled_char (c : ascii) : bool := negb (eqc "*" c) && negb (is_newline c).

Definition nonempty (t : str) : bool := match t with [] => false | _ :: _ => true end.

(** Spans written the plain way: no empty content, plain text free of [*]
    and [[] and never two plain texts in a row, bold and italic content free
    of [*] and newline, link text free of []] and link target free of [)].
    [after_plain] tells that the span before was plain text. *)
Fixpoint canonical (after_plain : bool) (xs : list span) : bool :=
  match xs with
  | [] => true
  | PlainText t :: xs' =>
      negb after_plain && nonempty t && forallb plain_char t && canonical true xs'
  | Bold t :: xs' | Italic t :: xs' =>
      nonempty t && forallb styled_char t && canonical false xs'
  | Link t url :: xs' =>
      nonempty t && forallb (λ c, negb (eqc "]" c)) t
      && nonempty url && forallb (λ c, negb (eqc ")" c)) url
      && canonical false xs'
  end.

(** Two facts that hold of the variables of the main loop before every
    iteration: lines are pending in the job block only inside the employment
    section, and table lines are pending only when the line to be read is a
    table row. *)
Definition job_block_in_section (s : state) : Prop :=
  current_job_block s ≠ [] -> in_employment s = true.

Definition table_pending_ok (s : state) (lines : list str) : Prop :=
  table_lines s ≠ [] ->
  match lines with
  | next :: _ => is_table_row (strip next) = true
  | [] => False
  end.

(** The section flag after a line: set from the heading when the line is
    one, and left alone otherwise. *)
Definition flag_after (line : str) (before : bool) : bool :=
  match heading_match (strip line) with
  | Some (level, g2) =>
      (level =? 2) && eqs (upper (strip g2)) (py "EMPLOYMENT HISTORY")
  | None => before
  end.

Definition nonempty_list (l : list str) : bool :=
  match l with [] => false | _ :: _ => true end.

(** The node of one stripped line of the header block. *)
Definition header_node (stripped : str) : paragraph :=
  match heading_match stripped with
  | Some (level, g2) =>
      Paragraph (Some (heading_style level)) (Some CENTER) false false
                (spans (strip g2))
  | None => Paragraph None (Some CENTER) false false (spans stripped)
  end.

(** No character of the line is a line boundary of [splitlines]. *)
Definition one_line (l : str) : bool := forallb (λ c, negb (is_linebreak c)) l.

(** [add_paragraph_with_formatting(doc, text, style, alignment)]; returns
    the document and the paragraph object. *)
Definition add_paragraph_with_formatting (doc : document) (text : str)
    (st : option style) (al : option alignment) : document * nat :=
  let '(doc, p) := doc_add_paragraph doc st in
  let doc :=
    match al with
    | Some a => doc_update doc p (set_alignment a)
    | None => doc
    end in
  (doc_update doc p (fun q => insert_formatted_text q text), p).

(** ** [tailor_and_convert.py] *)

(** The last statements of [fetch_job_details]: from the text of the page,
    as [soup.get_text(separator="\n")] returns it, to [clean_text]:
    [[line.strip() for line in text.splitlines()]], joined by newlines
    without the empty ones. *)
Definition clean_text (text : str) : str :=
  let lines := map strip (splitlines text) in
  join_lines (filter (λ line, line ≠ []) lines).

(** [sep.join(parts)] for a one-character separator. *)
Fixpoint join_with (sep : ascii) (parts : list str) : str :=
  match parts with
  | [] => []
  | [p] => p
  | p :: ps => p ++ sep :: join_with sep ps
  end.

(** The name of the backup file in [main]: [original_filename] is the base
    name of the resume, [taken] tells whether [backup_path] exists already,
    [date_str] and [random_letters] are the date and the random part of the
    stamp. *)
Definition backup_filename (original_filename : str) (taken : bool)
    (date_str random_letters : str) : str :=
  let backup_filename := original_filename ++ py ".bak" in
  if taken then
    let parts := split_on "."%char original_filename in
    if 1 <? length parts then
      join_with "."%char (removelast parts)
      ++ (py "." ++ date_str ++ py "_" ++ random_letters ++ py ".")
      ++ List.last parts [] ++ py ".bak"
    else
      original_filename ++ (py "." ++ date_str ++ py "_" ++ random_letters ++ py ".bak")
  else backup_filename.

(** ** The inline scan in the words of the specification

    Three span patterns: bold [**...**] and italic [*...*], both non-greedy,
    and the link [[display](target)].  At one position bold is tried before
    italic and italic before the link.  The line is scanned from left to
    right: the earliest position at which a pattern matches gives the next
    span, the text passed over before it is plain text, the scan resumes
    after the match, and what is left after the last match is plain text.
    These definitions are written from that description, not from the
    code. *)

(** What the formatter keeps of a span: its text. *)
Definition span_text (x : span) : str :=
  match x with
  | PlainText t | Bold t | Italic t | Link t _ => t
  end.

(** [s] starts with [opening], then [t], then [close], where [t] is what a
    non-greedy pattern takes: it is not empty, it holds no newline, and no
    shorter text would do. *)
Definition encloses (opening close t s : str) : Prop :=
  (∃ rest, s = opening ++ t ++ close ++ rest)
  ∧ t ≠ []
  ∧ forallb (λ c, negb (is_newline c)) t = true
  ∧ ∀ t1 rest1, s = opening ++ t1 ++ close ++ rest1 -> t1 ≠ [] ->
                length t <= length t1.

(** The span that starts [s], if one does. *)
Inductive span_at (s : str) : span -> Prop :=
| bold_span t :
    encloses (py "**") (py "**") t s -> span_at s (Bold t)
| italic_span t :
    (∀ b, ¬ encloses (py "**") (py "**") b s) ->
    encloses (py "*") (py "*") t s -> span_at s (Italic t)
| link_span t url rest :
    s = py "[" ++ t ++ py "](" ++ url ++ py ")" ++ rest ->
    t ≠ [] -> forallb (λ c, negb (eqc "]" c)) t = true ->
    url ≠ [] -> forallb (λ c, negb (eqc ")" c)) url = true ->
    span_at s (Link t url).

(** No span starts at any of the first [k] positions of [s]. *)
Definition plain_until (k : nat) (s : str) : Prop :=
  ∀ j x, j < k -> ¬ span_at (drop j s) x.

(** The spans of a line. *)
Inductive scanned : str -> list span -> Prop :=
| scanned_end line :
    plain_until (length line) line ->
    scanned line (match line with [] => [] | _ :: _ => [PlainText line] end)
| scanned_span before x rest xs :
    plain_until (length before) (before ++ span_markup x ++ rest) ->
    span_at (span_markup x ++ rest) x ->
    scanned rest xs ->
    scanned (before ++ span_markup x ++ rest)
            (match before with
             | [] => x :: xs
             | _ :: _ => PlainText before :: x :: xs
             end).

(* ================================================================== *)
(** * Properties *)
(* ================================================================== *)

Example spans_bold_italic :
  spans (py "**Bold** and *Italic*")
  = [bold_run (py "Bold"); plain_run (py " and "); italic_run (py "Italic")].
Proof. reflexivity. Qed.

Example spans_link :
  spans (py "[See site](https://example.com)")
  = [Hyperlink (py "See site") (py "https://example.com")].
Proof. reflexivity. Qed.

Example spans_lone_star :
  spans (py "price *was* $5 * up")
  = [plain_run (py "price "); italic_run (py "was"); plain_run (py " $5 * up")].
Proof. reflexivity. Qed.

(** ** Strings *)

Lemma startswith_app (p s : str) :
  startswith p s = true -> s = p ++ drop (length p) s.
Proof.
  revert s. induction p as [|a p IH]; intros [|b s]; simpl; try done.
  intros H. apply andb_prop in H as [Hab Hp].
  apply Ascii.eqb_eq in Hab. subst b. f_equal. by apply IH.
Qed.

Lemma take_while_length {A} (f : A -> bool) (s : list A) :
  take (length (take_while f s)) s = take_while f s.
Proof.
  induction s as [|c s IH]; simpl; [done|].
  destruct (f c); simpl; [by rewrite IH | done].
Qed.

Lemma take_while_drop {A} (f : A -> bool) (s : list A) :
  s = take_while f s ++ drop (length (take_while f s)) s.
Proof. by rewrite <- (take_while_length f s) at 1; rewrite take_drop. Qed.

(** ** The pattern: a match is the markup of its span *)

Lemma dot_plus_lazy_spec close r k :
  dot_plus_lazy close r = Some k -> followed_by k close r.
Proof.
  revert k. induction r as [|c r IH]; intros k; simpl; [done|].
  destruct (is_newline c); [done|].
  destruct (startswith close r) eqn:Hs.
  - intros [= <-]. unfold followed_by. simpl. split; [lia|]. split; [|lia].
    f_equal. by apply startswith_app.
  - destruct (dot_plus_lazy close r) as [k'|] eqn:Hk; simpl; [|done].
    intros [= <-]. destruct (IH k' eq_refl) as (Hpos & Heq & Hlen).
    unfold followed_by. simpl. split; [lia|]. split; [|lia].
    f_equal. exact Heq.
Qed.

Lemma not_char_plus_spec x close r k :
  not_char_plus x close r = Some k -> followed_by k close r.
Proof.
  unfold not_char_plus.
  destruct (take_while (λ c, negb (eqc x c)) r) as [|c t] eqn:Ht; [done|].
  destruct (startswith close (drop (length (c :: t)) r)) eqn:Hs; [|done].
  intros [= <-]. apply startswith_app in Hs. rewrite drop_drop in Hs.
  pose proof (take_while_drop (λ c, negb (eqc x c)) r) as Hr.
  pose proof (take_while_length (λ c, negb (eqc x c)) r) as Hl.
  rewrite Ht in Hr, Hl.
  assert (length (c :: t) <= length r).
  { rewrite Hr, length_app. lia. }
  unfold followed_by. split; [simpl; lia|]. split; [|done].
  change (S (length t)) with (length (c :: t)).
  rewrite Hl. rewrite <- Hs. exact Hr.
Qed.

Lemma delimited (opening close s : str) k :
  startswith opening s = true ->
  followed_by k close (drop (length opening) s) ->
  let t := take k (drop (length opening) s) in
  s = opening ++ t ++ close ++ drop (length opening + k + length close) s
  ∧ length t = k ∧ truthy (Some t) = true.
Proof.
  intros Ho (Hk & Hr & Hlen) t. apply startswith_app in Ho.
  assert (Ht : length t = k) by (unfold t; rewrite length_take; lia).
  split; [|split; [done|]].
  - rewrite Ho at 1. f_equal. rewrite Hr at 1. fold t.
    by rewrite drop_drop, Nat.add_assoc.
  - destruct t; simpl in *; [lia | done].
Qed.

Lemma pattern_at_spec s g len :
  pattern_at s = Some (g, len) ->
  ∃ x, match_span g = Some x
       ∧ s = source_of (pieces x) ++ drop len s
       ∧ len = length (source_of (pieces x))
       ∧ 0 < len.
Proof.
  unfold pattern_at.
  destruct (bold_at s) as [[g1 l1]|] eqn:Hb.
  { intros [= -> ->]. unfold bold_at in Hb.
    destruct (startswith (py "**") s) eqn:Ho; [|done].
    destruct (dot_plus_lazy (py "**") (drop 2 s)) as [k|] eqn:Hk; [|done].
    injection Hb as <- <-. apply dot_plus_lazy_spec in Hk.
    destruct (delimited (py "**") (py "**") s k Ho Hk) as (Hs & Ht & Htr).
    exists (bold_run (take k (drop 2 s))).
    unfold match_span. cbn [g_bold]. simpl length in *. rewrite Htr.
    split; [done|]. unfold source_of, bold_run, pieces. cbn [map piece_source concat].
    rewrite app_nil_r, !length_app, Ht. simpl length.
    split; [|split; [lia|lia]].
    rewrite <- !app_assoc. exact Hs. }
  destruct (italic_at s) as [[g1 l1]|] eqn:Hi.
  { intros [= -> ->]. unfold italic_at in Hi.
    destruct (startswith (py "*") s) eqn:Ho; [|done].
    destruct (dot_plus_lazy (py "*") (drop 1 s)) as [k|] eqn:Hk; [|done].
    injection Hi as <- <-. apply dot_plus_lazy_spec in Hk.
    destruct (delimited (py "*") (py "*") s k Ho Hk) as (Hs & Ht & Htr).
    exists (italic_run (take k (drop 1 s))).
    unfold match_span. cbn [g_bold g_italic]. simpl (truthy None).
    cbv iota. simpl length in *. rewrite Htr.
    split; [done|]. unfold source_of, italic_run, pieces. cbn [map piece_source concat].
    rewrite app_nil_r, !length_app, Ht. simpl length.
    split; [|split; [lia|lia]].
    rewrite <- !app_assoc. exact Hs. }
  intros Hl. unfold link_at in Hl.
  destruct (startswith (py "[") s) eqn:Ho; [|done].
  destruct (not_char_plus "]" (py "](") (drop 1 s)) as [k|] eqn:Hk; [|done].
  destruct (not_char_plus ")" (py ")") (drop (k + 2) (drop 1 s))) as [j|] eqn:Hj; [|done].
  injection Hl as <- <-.
  apply not_char_plus_spec in Hk. apply not_char_plus_spec in Hj.
  destruct (delimited (py "[") (py "](") s k Ho Hk) as (Hs & Ht & Htr).
  destruct Hj as (Hj0 & Hj & Hjl). simpl length in *.
  set (t := take k (drop 1 s)) in *.
  set (r2 := drop (k + 2) (drop 1 s)) in *.
  set (u := take j r2) in *.
  assert (Hu : length u = j) by (unfold u; rewrite length_take; lia).
  exists (Hyperlink t u).
  unfold match_span. cbn [g_bold g_italic g_link_text g_link_url group default].
  simpl (truthy None). cbv iota. rewrite Htr.
  split; [done|]. unfold source_of, pieces. cbn [map piece_source concat].
  rewrite app_nil_r, !length_app, Ht, Hu. simpl length in *.
  split; [|split; [lia|lia]].
  rewrite <- !app_assoc. rewrite Hs at 1. do 2 f_equal.
  simpl. do 2 f_equal.
  assert (Hr2 : drop (1 + k + 2) s = r2) by (unfold r2; rewrite drop_drop; f_equal; lia).
  change (S (k + 2)) with (1 + k + 2). rewrite Hr2. rewrite Hj at 1.
  f_equal. simpl. f_equal.
  unfold r2. rewrite !drop_drop. f_equal. lia.
Qed.

(** ** [insert_markdown_text] appends spans and changes nothing else *)

Lemma extend_nil para : extend para [] = para.
Proof. destruct para. unfold extend. simpl. by rewrite app_nil_r. Qed.

Lemma extend_extend para xs ys : extend (extend para xs) ys = extend para (xs ++ ys).
Proof. unfold extend. simpl. by rewrite app_assoc. Qed.

Lemma add_run_extend para x : add_run para x = extend para [x].
Proof. done. Qed.

Lemma insert_match_extend text m pos para :
  insert_match text m pos para = extend para (match_items text m pos).
Proof.
  unfold insert_match, match_items, match_span, add_hyperlink.
  destruct (pos <? m_start m);
    destruct (truthy (g_bold (m_groups m)));
    destruct (truthy (g_italic (m_groups m)));
    destruct (truthy (g_link_text (m_groups m)));
    rewrite ?add_run_extend, ?extend_extend, ?extend_nil; done.
Qed.

Lemma insert_loop_extend text ms pos para :
  insert_loop text ms pos para
  = (extend para (loop_items text ms pos), loop_pos ms pos).
Proof.
  revert pos para. induction ms as [|m ms IH]; intros pos para; simpl.
  - by rewrite extend_nil.
  - by rewrite IH, insert_match_extend, extend_extend.
Qed.

Lemma insert_markdown_text_extend para text :
  insert_markdown_text para text = extend para (format_spans text).
Proof.
  unfold insert_markdown_text, format_spans, tail_items.
  rewrite insert_loop_extend.
  destruct (loop_pos (finditer text) 0 <? length text).
  - by rewrite add_run_extend, extend_extend.
  - by rewrite app_nil_r.
Qed.

Lemma spans_format line : spans line = format_spans line.
Proof. unfold spans. by rewrite insert_markdown_text_extend. Qed.

(** ** The scan of [finditer] *)

Lemma finditer_aux_skip s i k :
  finditer_aux s i k = finditer_aux (drop k s) (i + k) 0.
Proof.
  revert i k. induction s as [|c s IH]; intros i k.
  - by rewrite drop_nil.
  - destruct k as [|k].
    + by rewrite Nat.add_0_r.
    + simpl. rewrite IH. f_equal. lia.
Qed.

Lemma source_of_app ps qs : source_of (ps ++ qs) = source_of ps ++ source_of qs.
Proof. unfold source_of. by rewrite map_app, concat_app. Qed.

Lemma kept_of_app ps qs : kept_of (ps ++ qs) = kept_of ps ++ kept_of qs.
Proof. unfold kept_of. by rewrite map_app, concat_app. Qed.

(** The spans of the loop, with their delimiters put back, are the text
    between [pos] and the end of the last match. *)
Lemma loop_items_source n :
  ∀ (s pre : str) pos, length s <= n -> pos <= length pre ->
    let text := pre ++ s in
    let ms := finditer_aux s (length pre) 0 in
    source_of (flat_map pieces (loop_items text ms pos)) ++ drop (loop_pos ms pos) text
    = drop pos text.
Proof.
  induction n as [|n IH]; intros s pre pos Hn Hpos.
  { destruct s; [done | simpl in Hn; lia]. }
  destruct s as [|c s]; [done|].
  cbn zeta. cbn [finditer_aux].
  destruct (pattern_at (c :: s)) as [[g len]|] eqn:Hpat.
  - destruct (pattern_at_spec _ _ _ Hpat) as (x & Hx & Hsrc & Hlen & Hpos').
    rewrite finditer_aux_skip.
    replace (drop (len - 1) s) with (drop len (c :: s))
      by (destruct len; [lia | simpl; by rewrite Nat.sub_0_r]).
    replace (S (length pre) + (len - 1)) with (length pre + len) by lia.
    set (rest := drop len (c :: s)) in *.
    cbn [loop_items loop_pos m_end]. unfold match_items. cbn [m_start m_groups].
    rewrite Hx.
    assert (Hle : length rest <= n).
    { unfold rest. rewrite length_drop. simpl in *. lia. }
    assert (Hpre : length pre + len = length (pre ++ source_of (pieces x))).
    { rewrite length_app. lia. }
    assert (Htext : pre ++ c :: s = (pre ++ source_of (pieces x)) ++ rest).
    { rewrite <- app_assoc. by rewrite <- Hsrc. }
    pose proof (IH rest (pre ++ source_of (pieces x))
                  (length pre + len) Hle ltac:(lia)) as IH'.
    cbn zeta in IH'. rewrite <- Htext, <- Hpre in IH'.
    rewrite flat_map_app, source_of_app, <- app_assoc.
    rewrite flat_map_app, source_of_app, <- app_assoc. rewrite IH'.
    rewrite Htext at 2. rewrite Hpre, drop_app_length.
    simpl flat_map. rewrite app_nil_r.
    destruct (pos <? length pre) eqn:Hlt.
    + apply Nat.ltb_lt in Hlt. simpl flat_map. unfold source_of at 1. simpl.
      rewrite app_nil_r. unfold slice.
      rewrite (drop_app_le pre) by lia.
      rewrite take_app_length' by (rewrite length_drop; lia).
      by rewrite Hsrc.
    + apply Nat.ltb_ge in Hlt. assert (pos = length pre) as -> by lia.
      simpl. rewrite drop_app_length. by rewrite Hsrc.
  - pose proof (IH s (pre ++ [c]) pos ltac:(simpl in Hn; lia)
                  ltac:(rewrite length_app; simpl; lia)) as IH'.
    cbn zeta in IH'. rewrite length_app in IH'. simpl length in IH'.
    rewrite Nat.add_1_r in IH'. rewrite <- app_assoc in IH'. exact IH'.
Qed.

Lemma format_spans_source line :
  source_of (flat_map pieces (format_spans line)) = line.
Proof.
  unfold format_spans, finditer.
  pose proof (loop_items_source (length line) line [] 0 (le_n _) (le_n _)) as H.
  cbn zeta in H. simpl in H.
  rewrite flat_map_app, source_of_app. unfold tail_items.
  set (pos := loop_pos (finditer_aux line 0 0) 0) in *.
  destruct (pos <? length line) eqn:Hlt.
  - simpl. unfold source_of at 2. simpl. by rewrite app_nil_r.
  - apply Nat.ltb_ge in Hlt. rewrite drop_ge in H by done.
    simpl. unfold source_of at 2. simpl. exact H.
Qed.

Lemma pieces_markup x : Forall markup (pieces x).
Proof.
  destruct x as [t [] [] f c | t u]; simpl;
    repeat (apply Forall_cons; split); try apply Forall_nil; simpl; auto.
  right; right; right. by exists u.
Qed.

Lemma pieces_kept x : kept_of (pieces x) = inline_text x.
Proof.
  destruct x as [t [] [] f c | t u]; unfold kept_of; simpl;
    by rewrite ?app_nil_r.
Qed.

Lemma flat_pieces_markup xs : Forall markup (flat_map pieces xs).
Proof.
  induction xs as [|x xs IH]; simpl; [constructor|].
  apply Forall_app. split; [apply pieces_markup | exact IH].
Qed.

Lemma flat_pieces_kept xs : kept_of (flat_map pieces xs) = visible_text xs.
Proof.
  induction xs as [|x xs IH]; simpl; [done|].
  rewrite kept_of_app, pieces_kept, IH. done.
Qed.

(** Punctuation holds no letter: removing it cannot remove a [b]. *)
Lemma punctuation_keeps_b ps :
  Forall punctuation ps -> "b"%char ∈ source_of ps -> "b"%char ∈ kept_of ps.
Proof.
  induction 1 as [|p ps Hp _ IH]; [done|].
  change (source_of (p :: ps)) with (piece_source p ++ source_of ps).
  change (kept_of (p :: ps)) with (piece_kept p ++ kept_of ps).
  rewrite !elem_of_app. intros [Hb|Hb]; [|right; by apply IH].
  destruct p as [t|d]; [by left|]. exfalso. simpl in Hp, Hb.
  repeat (apply elem_of_cons in Hp as [->|Hp];
          [vm_compute in Hb; repeat (apply elem_of_cons in Hb as [Hb|Hb]; [done|]);
           by apply elem_of_nil in Hb|]).
  by apply elem_of_nil in Hp.
Qed.

(** C1, as stated, fails on a link: the text of the spans of [[a](b)] is
    [a], which is not that line with only punctuation removed, since the
    target [b] would stay. *)
Lemma link_target_not_kept :
  ¬ removes_only punctuation (py "[a](b)") (visible_text (spans (py "[a](b)"))).
Proof.
  intros (ps & Hsrc & Hpun & Hkept).
  assert (Hb : "b"%char ∈ kept_of ps).
  { apply punctuation_keeps_b; [done|]. rewrite Hsrc.
    change (py "[a](b)") with ["["; "a"; "]"; "("; "b"; ")"]%char.
    rewrite !elem_of_cons. auto 10. }
  rewrite Hkept in Hb.
  replace (visible_text (spans (py "[a](b)"))) with ["a"%char] in Hb
    by (vm_compute; reflexivity).
  apply elem_of_cons in Hb as [Hb|Hb]; [done | by apply elem_of_nil in Hb].
Qed.


(** ** More on strings *)

Lemma take_while_app_all {A} (f : A -> bool) (l r : list A) :
  forallb f l = true -> take_while f (l ++ r) = l ++ take_while f r.
Proof.
  induction l as [|a l IH]; simpl; [done|].
  intros H. apply andb_prop in H as [Ha Hl]. rewrite Ha. f_equal. by apply IH.
Qed.

Lemma take_while_all {A} (f : A -> bool) (l : list A) :
  forallb f l = true -> take_while f l = l.
Proof.
  intros H. rewrite <- (app_nil_r l) at 1.
  rewrite take_while_app_all by done. simpl. apply app_nil_r.
Qed.

Lemma drop_take_while {A} (f : A -> bool) (s : list A) :
  drop (length (take_while f s)) s = drop_while f s.
Proof.
  induction s as [|c s IH]; simpl; [done|]. destruct (f c); simpl; done.
Qed.

Lemma drop_while_idem {A} (f : A -> bool) (s : list A) :
  drop_while f (drop_while f s) = drop_while f s.
Proof.
  induction s as [|c s IH]; simpl; [done|].
  destruct (f c) eqn:Hc; [done|]. simpl. by rewrite Hc.
Qed.

Lemma forallb_drop_while {A} (g f : A -> bool) (s : list A) :
  forallb g s = true -> forallb g (drop_while f s) = true.
Proof.
  induction s as [|c s IH]; simpl; [done|].
  intros H. destruct (f c); [|done]. apply andb_prop in H as [_ H]. by apply IH.
Qed.

Lemma strip_drop_while (s : str) : strip (drop_while is_space s) = strip s.
Proof. unfold strip, lstrip_by. by rewrite drop_while_idem. Qed.

Lemma space_is_not_hash c : is_space c = true -> eqc "#" c = false.
Proof. destruct c as [[] [] [] [] [] [] [] []]; done. Qed.

(** ** Paragraph objects *)

Lemma doc_update_last (doc : document) b f :
  doc_update (doc ++ [b]) (length doc) f = doc ++ [on_paragraph f b].
Proof.
  unfold doc_update. rewrite <- (Nat.add_0_r (length doc)).
  by rewrite alter_app_r.
Qed.

(** ** Headings *)

Lemma heading_match_spec h (ws text : str) :
  1 <= h <= 6 -> ws ≠ [] -> forallb is_space ws = true ->
  forallb (λ c, negb (is_newline c)) text = true ->
  heading_match (replicate h "#"%char ++ ws ++ text)
  = Some (h, drop_while is_space text).
Proof.
  intros Hh Hne Hws Htext. unfold heading_match.
  assert (Hhash : take_while (eqc "#") (replicate h "#"%char ++ ws ++ text)
                  = replicate h "#"%char).
  { rewrite take_while_app_all.
    - destruct ws as [|c ws]; [done|]. cbn [forallb] in Hws.
      cbn [app take_while].
      apply andb_prop in Hws as [Hc _].
      rewrite (space_is_not_hash c Hc). apply app_nil_r.
    - clear. induction h; simpl; [done|]. done. }
  rewrite Hhash, length_replicate.
  replace (1 <=? h) with true by (symmetry; apply Nat.leb_le; lia).
  replace (h <=? 6) with true by (symmetry; apply Nat.leb_le; lia).
  cbn [andb].
  assert (Hr : drop h (replicate h "#"%char ++ ws ++ text) = ws ++ text).
  { rewrite <- (length_replicate h "#"%char) at 1. apply drop_app_length. }
  rewrite Hr, (take_while_app_all is_space ws text Hws).
  assert (Hrest : drop (length (ws ++ take_while is_space text)) (ws ++ text)
                  = drop_while is_space text).
  { by rewrite length_app, <- drop_drop, drop_app_length, drop_take_while. }
  destruct (ws ++ take_while is_space text) as [|c l] eqn:E.
  { apply app_eq_nil in E as [-> _]. done. }
  rewrite Hrest.
  rewrite take_while_all by (by apply forallb_drop_while).
  by rewrite drop_all.
Qed.

Lemma insert_formatted_text_empty st al text :
  insert_formatted_text (Paragraph st al false false []) text
  = Paragraph st al false false (spans text).
Proof.
  unfold insert_formatted_text. rewrite insert_markdown_text_extend.
  unfold extend. simpl. by rewrite spans_format.
Qed.

(** C2: a line made of [h] marker characters, [1 <= h <= 6], then
    whitespace, then text, is rendered as a heading of level [h] (the level
    returned is the marker count); the paragraph emitted has style Heading1,
    Heading2 or Heading3 for the levels 1, 2, 3 and the body style Normal for
    the levels 4, 5 and 6.  The heading text is taken to be text that a run
    can hold. *)
Theorem heading_level_is_marker_count (doc : document) (h : nat) (ws text : str)
    (header_block : bool) :
  1 <= h <= 6 ->
  ws ≠ [] ->
  forallb is_space ws = true ->
  forallb (λ c, negb (is_newline c)) text = true ->
  safe_text text = true ->
  try_process_heading doc (replicate h "#"%char ++ ws ++ text) header_block
  = (doc ++ [Par (Paragraph
                    (Some match h with
                          | 1 => Heading1
                          | 2 => Heading2
                          | 3 => Heading3
                          | _ => Normal
                          end)
                    (if header_block then Some CENTER else None)
                    false false (spans (strip text)))],
     Some (h, strip text)).
Proof.
  intros Hh Hne Hws Htext _. unfold try_process_heading.
  rewrite heading_match_spec by done. rewrite strip_drop_while.
  unfold doc_add_paragraph, empty_paragraph.
  assert (Hst : heading_style h
                = match h with 1 => Heading1 | 2 => Heading2 | 3 => Heading3 | _ => Normal end).
  { destruct h as [|[|[|[|h]]]]; done. }
  rewrite Hst.
  destruct header_block.
  - rewrite !doc_update_last. cbn [on_paragraph]. unfold set_alignment.
    cbn [p_style p_alignment p_keep_with_next p_bottom_border p_content].
    by rewrite insert_formatted_text_empty.
  - rewrite !doc_update_last. cbn [on_paragraph].
    by rewrite insert_formatted_text_empty.
Qed.

Lemma heading_level_is_marker_count_witness :
  try_process_heading [] (replicate 4 "#"%char ++ py " " ++ py "Tools") false
  = ([Par (Paragraph (Some Normal) None false false (spans (strip (py "Tools"))))],
     Some (4, strip (py "Tools"))).
Proof.
  apply (heading_level_is_marker_count [] 4 (py " ") (py "Tools") false);
    [lia | done | reflexivity | reflexivity | reflexivity].
Defined.

(** ** Job blocks *)

Lemma job_block_loop_spec block_lines : ∀ (doc : document) paragraphs,
  job_block_loop doc block_lines paragraphs
  = (doc ++ map (λ l, Par (job_node false l)) (nonblank_lines block_lines),
     paragraphs ++ seq (length doc) (length (nonblank_lines block_lines))).
Proof.
  induction block_lines as [|line ls IH]; intros doc paragraphs.
  { simpl. by rewrite !app_nil_r. }
  cbn [job_block_loop]. unfold nonblank_lines. cbn [map].
  destruct (strip line) as [|c l] eqn:Hl.
  - rewrite IH. rewrite filter_cons_False by (intros H; by apply H). done.
  - rewrite filter_cons_True by done. fold (nonblank_lines ls).
    assert (Hnode : ∀ d : document,
      (if startswith (py "- ") (c :: l)
       then let '(doc0, p) := doc_add_paragraph d (Some ListBullet) in
            (doc_update doc0 p
               (λ q, insert_formatted_text q (strip (drop 2 (c :: l)))), p)
       else let '(doc0, p) := doc_add_paragraph d None in
            (doc_update doc0 p (λ q, insert_formatted_text q (c :: l)), p))
      = (d ++ [Par (job_node false (c :: l))], length d)).
    { intros d. unfold job_node, doc_add_paragraph, empty_paragraph.
      destruct (startswith (py "- ") (c :: l));
        rewrite doc_update_last; cbn [on_paragraph];
        by rewrite insert_formatted_text_empty. }
    rewrite Hnode. rewrite IH. cbn [map length].
    rewrite <- !app_assoc. cbn [app]. rewrite length_app. cbn [length].
    rewrite Nat.add_1_r. done.
Qed.

Lemma removelast_seq a n : removelast (seq a n) = seq a (n - 1).
Proof.
  destruct n as [|n]; [done|].
  rewrite seq_S, removelast_last. f_equal. lia.
Qed.

(** Mutating, through their references, the first [k] of the blocks that
    were appended to [doc]. *)
Lemma foldl_update_seq (f : paragraph -> paragraph) (doc ps : document) k :
  k <= length ps ->
  foldl (λ d p, doc_update d p f) (doc ++ ps) (seq (length doc) k)
  = doc ++ map (on_paragraph f) (take k ps) ++ drop k ps.
Proof.
  induction k as [|k IH]; intros Hk.
  { simpl. by rewrite drop_0. }
  rewrite seq_S, foldl_app. cbn [foldl]. rewrite IH by lia.
  unfold doc_update. rewrite alter_app_r.
  assert (Hlen : length (map (on_paragraph f) (take k ps)) = k).
  { rewrite length_map, length_take. lia. }
  rewrite <- Hlen at 1. rewrite <- (Nat.add_0_r (length (map _ _))).
  rewrite alter_app_r.
  destruct (drop k ps) as [|x rest] eqn:Hd.
  { apply (f_equal length) in Hd. rewrite length_drop in Hd. simpl in Hd. lia. }
  assert (Hx : ps !! k = Some x).
  { rewrite <- (Nat.add_0_r k), <- lookup_drop, Hd. done. }
  rewrite (take_S_r _ _ _ Hx), map_app, <- app_assoc. cbn [alter list_alter map app].
  do 3 f_equal.
  replace (S k) with (k + 1) by lia. by rewrite <- drop_drop, Hd.
Qed.

Lemma mark_all_but_last (ls : list str) :
  let ps := map (λ l, Par (job_node false l)) ls in
  map (on_paragraph set_keep_with_next) (take (length ls - 1) ps)
  ++ drop (length ls - 1) ps
  = map Par (job_nodes ls).
Proof.
  cbn zeta. induction ls as [|a ls IH]; [done|].
  destruct ls as [|b ls]; [done|].
  replace (length (a :: b :: ls) - 1) with (S (length (b :: ls) - 1))
    by (simpl; lia).
  cbn [map take drop app job_nodes]. cbn [map] in IH. rewrite IH.
  f_equal. unfold job_node. by destruct (startswith (py "- ") a).
Qed.

Lemma add_job_block_to_doc_nodes (doc : document) (block_lines : list str) :
  add_job_block_to_doc doc block_lines
  = doc ++ map Par (job_nodes (nonblank_lines block_lines)).
Proof.
  unfold add_job_block_to_doc. rewrite job_block_loop_spec.
  cbn [app]. rewrite removelast_seq.
  set (ls := nonblank_lines block_lines).
  rewrite foldl_update_seq by (rewrite length_map; lia).
  f_equal. apply (mark_all_but_last ls).
Qed.

Lemma job_node_keep keep line : p_keep_with_next (job_node keep line) = keep.
Proof. unfold job_node. by destruct (startswith (py "- ") line). Qed.

Lemma job_nodes_length ls : length (job_nodes ls) = length ls.
Proof.
  induction ls as [|a ls IH]; [done|].
  destruct ls as [|b ls]; [done|].
  change (job_nodes (a :: b :: ls)) with (job_node true a :: job_nodes (b :: ls)).
  cbn [length] in *. by rewrite IH.
Qed.

Lemma job_nodes_lookup ls : ∀ i p,
  job_nodes ls !! i = Some p ->
  ∃ line, ls !! i = Some line
          ∧ p = job_node (bool_decide (S i < length ls)) line.
Proof.
  induction ls as [|a ls IH]; intros i p; [done|].
  destruct ls as [|b ls].
  - destruct i as [|i]; [|done]. intros [= <-]. by exists a.
  - change (job_nodes (a :: b :: ls)) with (job_node true a :: job_nodes (b :: ls)).
    destruct i as [|i].
    + intros [= <-]. exists a. split; [done|].
      rewrite bool_decide_eq_true_2; [done | simpl; lia].
    + intros H. destruct (IH i p H) as (line & Hl & ->).
      exists line. split; [done|]. f_equal.
      apply bool_decide_ext. simpl. lia.
Qed.

(** C5: flushing a job block appends to the document one node for every
    accumulated line that is not empty once stripped, in order: a list item
    (style List Bullet, marker removed) when the stripped line starts with
    the bullet marker, a paragraph otherwise; a node carries the
    keep-with-next hint exactly when it is not the last of them.  The
    accumulated lines are taken to be text that a run can hold. *)
Theorem add_job_block_keeps_all_but_last (doc : document) (block_lines : list str) :
  forallb safe_text block_lines = true ->
  let lines := nonblank_lines block_lines in
  ∃ nodes : list paragraph,
    add_job_block_to_doc doc block_lines = doc ++ map Par nodes
    ∧ length nodes = length lines
    ∧ ∀ i node, nodes !! i = Some node ->
        ∃ line, lines !! i = Some line
          ∧ p_keep_with_next node = bool_decide (S i < length nodes)
          ∧ p_bottom_border node = false
          ∧ p_alignment node = None
          ∧ if startswith (py "- ") line
            then p_style node = Some ListBullet
                 ∧ p_content node = spans (strip (drop 2 line))
            else p_style node = None ∧ p_content node = spans line.
Proof.
  intros _. cbn zeta. exists (job_nodes (nonblank_lines block_lines)).
  split; [apply add_job_block_to_doc_nodes|].
  split; [apply job_nodes_length|].
  intros i node Hn. destruct (job_nodes_lookup _ _ _ Hn) as (line & Hl & ->).
  exists line. rewrite job_nodes_length, job_node_keep.
  split; [done|]. split; [done|].
  unfold job_node. by destruct (startswith (py "- ") line).
Qed.

Lemma add_job_block_keeps_all_but_last_witness :
  let block_lines := [py "Clerk, Initech"; py "  "; py " - filed *things*"] in
  let lines := nonblank_lines block_lines in
  ∃ nodes : list paragraph,
    add_job_block_to_doc [text_paragraph (py "Ann")] block_lines
    = [text_paragraph (py "Ann")] ++ map Par nodes
    ∧ length nodes = length lines
    ∧ ∀ i node, nodes !! i = Some node ->
        ∃ line, lines !! i = Some line
          ∧ p_keep_with_next node = bool_decide (S i < length nodes)
          ∧ p_bottom_border node = false
          ∧ p_alignment node = None
          ∧ if startswith (py "- ") line
            then p_style node = Some ListBullet
                 ∧ p_content node = spans (strip (drop 2 line))
            else p_style node = None ∧ p_content node = spans line.
Proof.
  apply (add_job_block_keeps_all_but_last [text_paragraph (py "Ann")]
           [py "Clerk, Initech"; py "  "; py " - filed *things*"]).
  reflexivity.
Defined.

(** ** The main loop *)

Lemma add_horizontal_line_spec (doc : document) :
  add_horizontal_line doc = doc ++ [Par rule_paragraph].
Proof.
  unfold add_horizontal_line, doc_add_paragraph. by rewrite doc_update_last.
Qed.

Lemma try_process_heading_none (doc : document) line hb :
  heading_match line = None -> try_process_heading doc line hb = (doc, None).
Proof. intros H. unfold try_process_heading. by rewrite H. Qed.

Lemma table_row_is_no_rule_no_heading (stripped : str) :
  is_table_row stripped = true ->
  eqs stripped (py "---") = false ∧ heading_match stripped = None.
Proof.
  destruct stripped as [|c r]; [done|]. unfold is_table_row. cbn [py startswith
    list_ascii_of_string]. intros H. apply andb_prop in H as [Hc _].
  apply Ascii.eqb_eq in Hc. subst c. done.
Qed.





(** C9: a table block of fewer than two lines adds nothing to the document
    and raises no error; so a single table-row line that is followed by a
    line that is no table row, or by the end of the input, leaves the state
    of the main loop as it was: the line is dropped. *)
Theorem lone_table_line_is_dropped (doc : document) (short_block : list str)
    (line : str) (rest : list str) (s : state) :
  length short_block < 2 ->
  is_table_row (strip line) = true ->
  table_lines s = [] ->
  match rest with
  | next :: _ => is_table_row (strip next) = false
  | [] => True
  end ->
  add_table_to_doc doc short_block = Ok doc
  ∧ process_line line rest s = Ok s.
Proof.
  intros Hshort Hrow Htl Hnext. split.
  - unfold add_table_to_doc.
    by replace (length short_block <? 2) with true
      by (symmetry; by apply Nat.ltb_lt).
  - destruct s as [d emp job tl]. simpl in Htl. subst tl.
    destruct (table_row_is_no_rule_no_heading _ Hrow) as [Hrule Hhead].
    unfold process_line. cbn [st_doc in_employment current_job_block table_lines].
    rewrite Hrule, (try_process_heading_none _ _ _ Hhead), Hrow.
    assert (Hflush : match rest with
                     | next :: _ => negb (is_table_row (strip next))
                     | [] => true
                     end = true).
    { destruct rest as [|next rest]; [done|]. by rewrite Hnext. }
    rewrite Hflush. cbn [app]. done.
Qed.

Lemma lone_table_line_is_dropped_witness :
  add_table_to_doc [Par rule_paragraph] [py "| Skill | Level |"]
  = Ok [Par rule_paragraph]
  ∧ process_line (py "| Skill | Level |") [py "Some text"] (State [] false [] [])
    = Ok (State [] false [] []).
Proof.
  apply (lone_table_line_is_dropped [Par rule_paragraph] [py "| Skill | Level |"]
           (py "| Skill | Level |") [py "Some text"] (State [] false [] []));
    [simpl; lia | reflexivity | reflexivity | reflexivity].
Defined.

(** ** What the main loop does with headings, blank lines and ragged tables *)

Lemma eqs_eq (a b : str) : eqs a b = true -> a = b.
Proof.
  revert b. induction a as [|x a IH]; intros [|y b]; simpl; try done.
  intros H. apply andb_prop in H as [Hxy Hab].
  apply Ascii.eqb_eq in Hxy. subst. f_equal. by apply IH.
Qed.

Lemma heading_is_no_rule (stripped : str) m :
  heading_match stripped = Some m -> eqs stripped (py "---") = false.
Proof.
  intros Hm. destruct (eqs stripped (py "---")) eqn:He; [|done].
  apply eqs_eq in He. subst stripped. done.
Qed.

(** A heading line in the main loop: the heading paragraph is appended
    first, the pending job block is flushed after it, and the section flag is
    set from the level and the text. *)
Lemma process_line_heading line rest (s : state) level g2 :
  heading_match (strip line) = Some (level, g2) ->
  let head :=
    Par (Paragraph (Some (heading_style level)) None false false (spans (strip g2))) in
  let flush := in_employment s && bool_decide (current_job_block s ≠ []) in
  process_line line rest s
  = Ok (State
          (if flush
           then st_doc s ++ [head]
                ++ map Par (job_nodes (nonblank_lines (current_job_block s)))
           else st_doc s ++ [head])
          ((level =? 2) && eqs (upper (strip g2)) (py "EMPLOYMENT HISTORY"))
          (if flush then [] else current_job_block s)
          (table_lines s)).
Proof.
  intros Hm. cbn zeta. unfold process_line.
  rewrite (heading_is_no_rule _ _ Hm).
  unfold try_process_heading. rewrite Hm.
  unfold doc_add_paragraph, empty_paragraph. rewrite doc_update_last.
  cbn [on_paragraph]. rewrite insert_formatted_text_empty.
  destruct s as [doc emp job tl].
  cbn [st_doc in_employment current_job_block table_lines].
  destruct emp, job as [|j job]; cbn [flush_job_block andb]; try done.
  rewrite add_job_block_to_doc_nodes. by rewrite <- app_assoc.
Qed.

(** Outside the employment section a blank line of the main loop becomes a
    paragraph of its own. *)
Lemma process_line_blank line rest (doc : document) job tl :
  strip line = [] ->
  process_line line rest (State doc false job tl)
  = Ok (State (doc ++ [Par (Paragraph None None false false (spans line))])
              false job tl).
Proof.
  intros Hb. unfold process_line. rewrite Hb.
  cbn [st_doc in_employment current_job_block table_lines].
  change (eqs [] (py "---")) with false.
  change (try_process_heading doc [] false) with (doc, @None (nat * str)).
  change (is_table_row []) with false.
  change (startswith (py "- ") []) with false. cbv iota.
  unfold doc_add_paragraph, empty_paragraph. rewrite doc_update_last.
  cbn [on_paragraph]. by rewrite insert_formatted_text_empty.
Qed.

(** C3, at the failing input: the heading that closes the employment section
    is in the document before the job block that was pending when it was
    read. *)
Theorem heading_precedes_pending_job_block :
  render_lines [py "---"; py "## EMPLOYMENT HISTORY"; py "Engineer, Acme";
                py "## EDUCATION"]
  = Ok [Par rule_paragraph;
        heading2 (py "EMPLOYMENT HISTORY");
        heading2 (py "EDUCATION");
        text_paragraph (py "Engineer, Acme")].
Proof. vm_compute. reflexivity. Qed.

(** C6, at the failing input: the blank line between the rule and the text
    is not skipped; it contributes an empty paragraph to the body. *)
Theorem blank_body_line_adds_paragraph :
  render_lines (splitlines (py "---" ++ [LF; LF] ++ py "Summary"))
  = Ok [Par rule_paragraph;
        Par (Paragraph None None false false []);
        text_paragraph (py "Summary")].
Proof. vm_compute. reflexivity. Qed.

(** C7, at the failing input: a data row with more cells than the header
    makes the run end in an IndexError. *)
Theorem ragged_table_raises :
  render_lines [py "---"; py "| Skill |"; py "|---|"; py "| Rocq | expert |"]
  = Raise IndexError.
Proof. vm_compute. reflexivity. Qed.

(** C4, at the failing input: the data row has one cell where the header has
    two; the second cell of the row is left as [add_table] made it, without
    the data highlight. *)
Theorem short_row_leaves_cell_unshaded :
  add_table_to_doc [] [py "| Skill | Level |"; py "|---|---|"; py "| Rocq |"]
  = Ok [Tbl (Table true 2
               [[shaded_cell pastel_green dark_green (py "Skill");
                 shaded_cell pastel_green dark_green (py "Level")];
                [shaded_cell pastel_yellow black (py "Rocq"); empty_cell]])].
Proof. vm_compute. reflexivity. Qed.

(** ** Files *)

Lemma ensure_dir_files w path : w_files (ensure_dir w path) = w_files w.
Proof. unfold ensure_dir. by destruct (path_exists w path). Qed.

Lemma output_location_files E docx_file output_path w :
  w_files (fst (output_location E docx_file output_path w)) = w_files w.
Proof.
  unfold output_location.
  destruct output_path as [[|c op]|]; cbn [fst];
    try (destruct (dirname E docx_file); cbn [fst]);
    by rewrite ?ensure_dir_files.
Qed.

Lemma open_read_text w path content :
  w_files w !! path = Some (TextFile content) ->
  open_read w path
  = (World (w_files w) (w_dirs w) (w_log w ++ [EvOpen path]), Ok content).
Proof. intros H. unfold open_read. by rewrite H. Qed.

(** The paragraph of the page header as the function builds it. *)
Lemma header_paragraph_built h :
  set_alignment CENTER (insert_markdown_text (empty_paragraph (Some Header)) (strip h))
  = header_paragraph h.
Proof.
  rewrite insert_markdown_text_extend. unfold header_paragraph.
  by rewrite spans_format.
Qed.

(** A run in which both files are there and the rendering raises nothing:
    it ends with the attempt to save the document. *)
Lemma convert_md_to_docx_run E md_file docx_file output_path w md h body :
  w_files w !! md_file = Some (TextFile md) ->
  w_files w !! header_path E = Some (TextFile h) ->
  render_lines (markdown_lines md) = Ok body ->
  convert_md_to_docx E md_file docx_file output_path w
  = (let '(w1, out) := output_location E docx_file output_path w in
     let opened := w_log w1 ++ [EvOpen md_file; EvOpen (header_path E)] in
     if folder_exists E w1 out
     then (World (<[out := DocxFile (Docx resume_settings (header_paragraph h) body)]>
                    (w_files w))
                 (w_dirs w1)
                 (opened ++ [EvSave out;
                             EvPrint (py "Saved formatted resume to " ++ out)]),
           Ok tt)
     else (World (w_files w) (w_dirs w1) (opened ++ [EvSave out]),
           Raise (FileNotFoundError out))).
Proof.
  intros Hmd Hh Hbody. unfold convert_md_to_docx.
  pose proof (output_location_files E docx_file output_path w) as Hf.
  destruct (output_location E docx_file output_path w) as [w1 out].
  cbn [fst] in Hf.
  rewrite (open_read_text w1 md_file md) by (by rewrite Hf).
  rewrite (open_read_text _ (header_path E) h) by (cbn [w_files]; by rewrite Hf).
  unfold markdown_lines in Hbody. rewrite Hbody, header_paragraph_built.
  unfold save, print.
  match goal with
  | |- context [folder_exists E ?w0 out] =>
      change (folder_exists E w0 out) with (folder_exists E w1 out)
  end.
  destruct (folder_exists E w1 out);
    cbn [w_files w_dirs w_log]; by rewrite Hf, <- !app_assoc.
Qed.

Lemma disk_resume :
  w_files disk !! py "cv.md"
  = Some (TextFile (py "# Ann" ++ [LF] ++ py "---" ++ [LF] ++ py "Text")).
Proof. unfold disk. cbn [w_files]. by rewrite lookup_insert_eq. Qed.

Lemma disk_header :
  w_files disk !! header_path posix = Some (TextFile (py "Ann *CV*")).
Proof.
  unfold disk. cbn [w_files].
  rewrite lookup_insert_ne by done.
  change (header_path posix) with (py "/opt/resume/settings/header.txt").
  by rewrite lookup_insert_eq.
Qed.

(** On [disk] the document goes to the folder [exported_resumes] next to the
    script, which the run creates. *)
Lemma disk_output :
  output_location posix (py "cv.docx") None disk
  = (makedirs disk (py "/opt/resume/exported_resumes"),
     py "/opt/resume/exported_resumes/cv.docx").
Proof.
  unfold output_location.
  change (dirname posix (py "cv.docx")) with (@nil ascii).
  change (join posix (dirname posix (script_file posix)) (py "exported_resumes"))
    with (py "/opt/resume/exported_resumes").
  change (join posix (py "/opt/resume/exported_resumes") (py "cv.docx"))
    with (py "/opt/resume/exported_resumes/cv.docx").
  unfold ensure_dir, path_exists, disk. cbn [w_files w_dirs].
  rewrite bool_decide_eq_false_2 by set_solver.
  rewrite !lookup_insert_ne by done. rewrite lookup_empty.
  rewrite bool_decide_eq_false_2 by (by intros [? ?]). done.
Qed.





(** ** Tables *)

Lemma write_row_spec fill color texts : ∀ (written : list cell) n,
  write_row fill color texts (length written) (written ++ replicate n empty_cell)
  = if length texts <=? n
    then Ok (written ++ map (λ t, write_cell fill color t empty_cell) texts
                     ++ replicate (n - length texts) empty_cell)
    else Raise IndexError.
Proof.
  induction texts as [|text texts IH]; intros written n.
  { cbn [write_row length map app]. by rewrite Nat.sub_0_r. }
  cbn [write_row]. destruct n as [|n].
  - cbn [replicate]. rewrite app_nil_r, lookup_ge_None_2 by lia. done.
  - rewrite lookup_app_r, Nat.sub_diag by lia. cbn [replicate lookup list_lookup].
    rewrite <- (Nat.add_0_r (length written)) at 2.
    rewrite insert_app_r. cbn [insert list_insert].
    replace (S (length written))
      with (length (written ++ [write_cell fill color text empty_cell]))
      by (rewrite length_app; simpl; lia).
    replace (written ++ write_cell fill color text empty_cell :: replicate n empty_cell)
      with ((written ++ [write_cell fill color text empty_cell])
            ++ replicate n empty_cell) by (by rewrite <- app_assoc).
    rewrite IH.
    cbn [length map]. change (S (length texts) <=? S n) with (length texts <=? n).
    destruct (length texts <=? n); [|done].
    by rewrite <- app_assoc.
Qed.

Lemma write_data_rows_spec cols data_lines : ∀ (written : list (list cell)) i m,
  i + 1 = length written ->
  length data_lines <= m ->
  write_data_rows data_lines i
    (written ++ replicate m (replicate cols empty_cell))
  = if forallb (fits cols) data_lines
    then Ok (written
             ++ map (λ l, written_row pastel_yellow black cols (cells_of_line l))
                    data_lines
             ++ replicate (m - length data_lines) (replicate cols empty_cell))
    else Raise IndexError.
Proof.
  induction data_lines as [|line ls IH]; intros written i m Hi Hm.
  { cbn [write_data_rows forallb length map app]. by rewrite Nat.sub_0_r. }
  cbn [length] in Hm. destruct m as [|m]; [lia|].
  cbn [write_data_rows forallb]. rewrite Hi.
  rewrite lookup_app_r, Nat.sub_diag by lia. cbn [replicate lookup list_lookup].
  pose proof (write_row_spec pastel_yellow black (cells_of_line line) [] cols) as Hrow.
  cbn [length app] in Hrow. rewrite Hrow. unfold fits at 1.
  destruct (length (cells_of_line line) <=? cols); [|done].
  cbn [mbind result_bind andb].
  rewrite <- (Nat.add_0_r (length written)) at 1.
  rewrite insert_app_r. cbn [insert list_insert].
  set (row := written_row pastel_yellow black cols (cells_of_line line)).
  fold (written_row pastel_yellow black cols (cells_of_line line)). fold row.
  replace (written ++ row :: replicate m (replicate cols empty_cell))
    with ((written ++ [row]) ++ replicate m (replicate cols empty_cell))
    by (by rewrite <- app_assoc).
  rewrite (IH _ (S i) m) by (rewrite ?length_app; simpl; lia).
  destruct (forallb (fits cols) ls); [|done].
  cbn [length map]. by rewrite <- app_assoc.
Qed.

(** What [add_table_to_doc] does with a block of a header line, a separator
    and data lines: a table as wide as the header, one row for the header
    and one for each data line, provided that no data line has more cells
    than the header; an IndexError otherwise. *)
Lemma add_table_to_doc_spec (doc : document) header separator data_lines :
  let cols := length (cells_of_line header) in
  add_table_to_doc doc (header :: separator :: data_lines)
  = if forallb (fits cols) data_lines
    then Ok (doc ++ [Tbl (Table true cols
               (written_row pastel_green dark_green cols (cells_of_line header)
                :: map (λ l, written_row pastel_yellow black cols (cells_of_line l))
                       data_lines))])
    else Raise IndexError.
Proof.
  cbn zeta. unfold add_table_to_doc. cbn [length Nat.ltb Nat.leb drop].
  unfold new_table. cbn [t_rows t_grid t_cols].
  rewrite Nat.add_1_r. cbn [replicate lookup list_lookup].
  pose proof (write_row_spec pastel_green dark_green (cells_of_line header) []
                (length (cells_of_line header))) as Hrow.
  cbn [length app] in Hrow. rewrite Hrow, Nat.leb_refl.
  cbn [mbind result_bind insert list_insert].
  pose proof (write_data_rows_spec (length (cells_of_line header)) data_lines
    [map (λ t, write_cell pastel_green dark_green t empty_cell) (cells_of_line header)
     ++ replicate (length (cells_of_line header) - length (cells_of_line header))
          empty_cell]
    0 (length data_lines) eq_refl (le_n _)) as Hrows.
  cbn [app] in Hrows. rewrite !drop_0, Hrows.
  destruct (forallb (fits (length (cells_of_line header))) data_lines); [|done].
  cbn [mbind result_bind]. unfold written_row.
  rewrite !Nat.sub_diag. cbn [replicate]. by rewrite !app_nil_r.
Qed.

(** * Further properties of the code *)

(** ** The inline formatter *)

(** [insert_markdown_text] only appends to the paragraph it is given: style,
    alignment, keep-with-next and border stay, the content that was there
    stays in front, and what is added are the spans of the text, for a text
    that a run can hold. *)
Theorem insert_markdown_text_appends (para : paragraph) (text : str) :
  safe_text text = true ->
  let q := insert_markdown_text para text in
  p_style q = p_style para
  ∧ p_alignment q = p_alignment para
  ∧ p_keep_with_next q = p_keep_with_next para
  ∧ p_bottom_border q = p_bottom_border para
  ∧ p_content q = p_content para ++ spans text.
Proof.
  intros _. cbn zeta.
  rewrite insert_markdown_text_extend, spans_format. by destruct para.
Qed.

Lemma insert_markdown_text_appends_witness :
  let para := Paragraph (Some ListBullet) (Some CENTER) true false
                        [plain_run (py "Skills: ")] in
  let q := insert_markdown_text para (py "**Rocq** and *more*") in
  p_style q = p_style para
  ∧ p_alignment q = p_alignment para
  ∧ p_keep_with_next q = p_keep_with_next para
  ∧ p_bottom_border q = p_bottom_border para
  ∧ p_content q = p_content para ++ spans (py "**Rocq** and *more*").
Proof.
  apply (insert_markdown_text_appends
           (Paragraph (Some ListBullet) (Some CENTER) true false
                      [plain_run (py "Skills: ")])
           (py "**Rocq** and *more*")).
  reflexivity.
Defined.

Lemma match_span_nonempty g x : match_span g = Some x -> inline_text x ≠ [].
Proof.
  unfold match_span.
  destruct (g_bold g) as [[|c t]|]; cbn [truthy group default];
    [| intros [= <-]; done |];
    (destruct (g_italic g) as [[|c' t']|]; cbn [truthy group default];
     [| intros [= <-]; done |]);
    (destruct (g_link_text g) as [[|c2 t2]|]; cbn [truthy group default];
     [done | intros [= <-]; done | done]).
Qed.

Lemma finditer_aux_starts s : ∀ i k,
  Forall (λ m, m_start m < i + length s) (finditer_aux s i k).
Proof.
  induction s as [|c s IH]; intros i k; [constructor|].
  cbn [finditer_aux length]. destruct k as [|k].
  - destruct (pattern_at (c :: s)) as [[g len]|].
    + constructor; [simpl; lia|].
      eapply Forall_impl; [apply IH|]. intros m Hm. simpl in Hm. lia.
    + eapply Forall_impl; [apply IH|]. intros m Hm. simpl in Hm. lia.
  - eapply Forall_impl; [apply IH|]. intros m Hm. simpl in Hm. lia.
Qed.

Lemma loop_items_nonempty text ms : ∀ pos,
  Forall (λ m, m_start m < length text) ms ->
  Forall (λ x, inline_text x ≠ []) (loop_items text ms pos).
Proof.
  induction ms as [|m ms IH]; intros pos Hms; [constructor|].
  apply Forall_cons in Hms as [Hm Hms]. cbn [loop_items].
  apply Forall_app. split; [|by apply IH].
  unfold match_items. apply Forall_app. split.
  - destruct (pos <? m_start m) eqn:Hlt; [|constructor].
    apply Nat.ltb_lt in Hlt. constructor; [|constructor].
    cbn [plain_run inline_text]. unfold slice. intros Hnil.
    apply (f_equal length) in Hnil.
    rewrite length_take, length_drop in Hnil. simpl in Hnil. lia.
  - destruct (match_span (m_groups m)) as [x|] eqn:Hx; [|constructor].
    constructor; [|constructor]. by eapply match_span_nonempty.
Qed.

(** No span of the formatter is empty: plain text between matches is only
    added when there is some, and the groups of a match hold at least one
    character. *)
Theorem spans_are_not_empty (line : str) :
  Forall (λ x, inline_text x ≠ []) (spans line).
Proof.
  rewrite spans_format. unfold format_spans. apply Forall_app. split.
  - apply loop_items_nonempty. apply (finditer_aux_starts line 0 0).
  - unfold tail_items.
    destruct (loop_pos (finditer line) 0 <? length line) eqn:Hlt; [|constructor].
    apply Nat.ltb_lt in Hlt. constructor; [|constructor].
    cbn [plain_run inline_text]. intros Hnil. apply (f_equal length) in Hnil.
    rewrite length_drop in Hnil. simpl in Hnil. lia.
Qed.

(** *** Markup written the plain way is read back as it was written *)

Lemma pattern_at_plain c s : plain_char c = true -> pattern_at (c :: s) = None.
Proof.
  unfold plain_char. intros H. apply andb_prop in H as [Hs Hb].
  apply negb_true_iff in Hs, Hb.
  unfold pattern_at, bold_at, italic_at, link_at.
  cbn [py list_ascii_of_string startswith]. by rewrite Hs, Hb.
Qed.

Lemma finditer_aux_plain t : ∀ s i,
  forallb plain_char t = true ->
  finditer_aux (t ++ s) i 0 = finditer_aux s (i + length t) 0.
Proof.
  induction t as [|c t IH]; intros s i Ht.
  { simpl. by rewrite Nat.add_0_r. }
  cbn [forallb] in Ht. apply andb_prop in Ht as [Hc Ht].
  cbn [app finditer_aux]. rewrite pattern_at_plain by done.
  rewrite IH by done. f_equal. simpl. lia.
Qed.

Lemma startswith_self_app (p s : str) : startswith p (p ++ s) = true.
Proof.
  induction p as [|a p IH]; [done|]. cbn [app startswith].
  unfold eqc. by rewrite IH, Ascii.eqb_refl.
Qed.

(** The lazy [.+?] stops at the first [close] when the content holds no
    [*]. *)
Lemma dot_plus_lazy_styled (close : str) t rest :
  startswith (py "*") close = true ->
  nonempty t = true ->
  forallb styled_char t = true ->
  dot_plus_lazy close (t ++ close ++ rest) = Some (length t).
Proof.
  intros Hclose. induction t as [|c t IH]; [done|]. intros _ Ht.
  cbn [forallb] in Ht. apply andb_prop in Ht as [Hc Ht].
  unfold styled_char in Hc. apply andb_prop in Hc as [_ Hnl].
  apply negb_true_iff in Hnl.
  cbn [app dot_plus_lazy]. rewrite Hnl.
  destruct t as [|c2 t].
  - cbn [app]. by rewrite startswith_self_app.
  - assert (Hno : startswith close ((c2 :: t) ++ close ++ rest) = false).
    { destruct close as [|x close]; [done|].
      cbn [py list_ascii_of_string startswith] in Hclose.
      rewrite andb_true_r in Hclose. apply Ascii.eqb_eq in Hclose. subst x.
      cbn [forallb] in Ht. apply andb_prop in Ht as [Hc2 _].
      unfold styled_char in Hc2. apply andb_prop in Hc2 as [Hstar _].
      apply negb_true_iff in Hstar. cbn [app startswith]. by rewrite Hstar. }
    rewrite Hno, IH by done. done.
Qed.

(** The greedy class stops at the first [x] when the content holds none. *)
Lemma not_char_plus_free x (close : str) t rest :
  startswith [x] close = true ->
  nonempty t = true ->
  forallb (λ c, negb (eqc x c)) t = true ->
  not_char_plus x close (t ++ close ++ rest) = Some (length t).
Proof.
  intros Hclose Hne Ht. unfold not_char_plus.
  assert (Htw : take_while (λ c, negb (eqc x c)) (t ++ close ++ rest) = t).
  { rewrite take_while_app_all by done.
    destruct close as [|y close]; [done|].
    cbn [startswith] in Hclose. rewrite andb_true_r in Hclose.
    cbn [app take_while]. rewrite Hclose. cbn [negb]. apply app_nil_r. }
  rewrite Htw. destruct t as [|c t]; [done|].
  by rewrite drop_app_length, startswith_self_app.
Qed.

Lemma pattern_at_markup x rest :
  match x with PlainText _ => False | _ => True end ->
  canonical false [x] = true ->
  ∃ g, pattern_at (span_markup x ++ rest) = Some (g, length (span_markup x))
       ∧ match_span g = Some (render_span x).
Proof.
  destruct x as [t|t|t|t url]; intros Hkind Hcan; [done| | |];
    cbn [canonical] in Hcan; rewrite andb_true_r in Hcan.
  - apply andb_prop in Hcan as [Hne Ht].
    exists (Groups (Some t) None None None).
    unfold pattern_at, bold_at. cbn [span_markup].
    rewrite <- !app_assoc, startswith_self_app.
    change (drop 2 (py "**" ++ t ++ py "**" ++ rest)) with (t ++ py "**" ++ rest).
    rewrite dot_plus_lazy_styled by done.
    rewrite take_app_length, !length_app. split; [do 3 f_equal; simpl; lia|].
    unfold match_span. cbn [g_bold group default]. by destruct t.
  - apply andb_prop in Hcan as [Hne Ht].
    exists (Groups None (Some t) None None).
    unfold pattern_at, bold_at, italic_at. cbn [span_markup].
    rewrite <- !app_assoc.
    assert (Hb : startswith (py "**") (py "*" ++ t ++ py "*" ++ rest) = false).
    { destruct t as [|c t]; [done|]. cbn [forallb] in Ht.
      apply andb_prop in Ht as [Hc _]. unfold styled_char in Hc.
      apply andb_prop in Hc as [Hstar _]. apply negb_true_iff in Hstar.
      cbn [py list_ascii_of_string app startswith]. rewrite Hstar.
      by rewrite andb_false_r. }
    rewrite Hb, startswith_self_app.
    change (drop 1 (py "*" ++ t ++ py "*" ++ rest)) with (t ++ py "*" ++ rest).
    rewrite dot_plus_lazy_styled by done.
    rewrite take_app_length, !length_app. split; [do 3 f_equal; simpl; lia|].
    unfold match_span. cbn [g_bold g_italic group default truthy]. by destruct t.
  - apply andb_prop in Hcan as [Hcan Hu]. apply andb_prop in Hcan as [Hcan Hune].
    apply andb_prop in Hcan as [Hne Ht].
    exists (Groups None None (Some t) (Some url)).
    unfold pattern_at, bold_at, italic_at, link_at. cbn [span_markup].
    rewrite <- !app_assoc.
    change (startswith (py "**") (py "[" ++ t ++ py "](" ++ url ++ py ")" ++ rest))
      with false.
    change (startswith (py "*") (py "[" ++ t ++ py "](" ++ url ++ py ")" ++ rest))
      with false.
    rewrite startswith_self_app.
    change (drop 1 (py "[" ++ t ++ py "](" ++ url ++ py ")" ++ rest))
      with (t ++ py "](" ++ url ++ py ")" ++ rest).
    rewrite not_char_plus_free by done.
    replace (drop (length t + 2) (t ++ py "](" ++ url ++ py ")" ++ rest))
      with (url ++ py ")" ++ rest)
      by (rewrite <- drop_drop, drop_app_length; done).
    rewrite not_char_plus_free by done.
    rewrite !take_app_length, !length_app. split; [do 2 f_equal; simpl; lia|].
    unfold match_span. cbn [g_bold g_italic g_link_text g_link_url group default truthy].
    by destruct t.
Qed.

Lemma finditer_aux_match s i g len :
  pattern_at s = Some (g, len) -> 0 < len ->
  finditer_aux s i 0 = Match i (i + len) g :: finditer_aux (drop len s) (i + len) 0.
Proof.
  intros Hpat Hlen. destruct s as [|c s]; [done|].
  cbn [finditer_aux]. rewrite Hpat, finditer_aux_skip. f_equal.
  destruct len as [|len]; [lia|]. cbn [drop]. rewrite Nat.sub_succ, Nat.sub_0_r.
  f_equal. lia.
Qed.

Lemma canonical_markup_cons b x xs :
  match x with PlainText _ => False | _ => True end ->
  canonical b (x :: xs) = true ->
  canonical false [x] = true ∧ canonical false xs = true.
Proof.
  destruct x; [done|..]; cbn [canonical]; rewrite andb_true_r; intros _ H;
    apply andb_prop in H as [H1 H2]; done.
Qed.

Lemma span_markup_length x :
  match x with PlainText _ => False | _ => True end -> 0 < length (span_markup x).
Proof.
  destruct x; [done|..]; intros _; cbn [span_markup];
    rewrite length_app; simpl; lia.
Qed.

Lemma loop_of_canonical xs : ∀ (pre : str) pos,
  pos <= length pre ->
  canonical (pos <? length pre) xs = true ->
  let text := pre ++ line_of_spans xs in
  let ms := finditer_aux (line_of_spans xs) (length pre) 0 in
  loop_items text ms pos ++ tail_items text (loop_pos ms pos)
  = (if pos <? length pre then [plain_run (drop pos pre)] else [])
    ++ map render_span xs.
Proof.
  induction xs as [|x xs IH]; intros pre pos Hpos Hcan; cbn zeta.
  { unfold line_of_spans. cbn [map concat finditer_aux loop_items loop_pos app].
    rewrite !app_nil_r. unfold tail_items. by destruct (pos <? length pre). }
  change (line_of_spans (x :: xs)) with (span_markup x ++ line_of_spans xs).
  destruct (match x with PlainText _ => true | _ => false end) eqn:Hkind.
  - destruct x as [t| | |]; try done. cbn [canonical] in Hcan.
    apply andb_prop in Hcan as [Hcan Hxs]. apply andb_prop in Hcan as [Hcan Ht].
    apply andb_prop in Hcan as [Hflag Hne]. apply negb_true_iff in Hflag.
    apply Nat.ltb_ge in Hflag as Hge. assert (pos = length pre) as -> by lia.
    cbn [span_markup map]. rewrite finditer_aux_plain by done.
    rewrite Hflag. cbn [app].
    pose proof (IH (pre ++ t) (length pre)) as IH'.
    rewrite length_app in IH'.
    assert (Hlt : (length pre <? length pre + length t) = true).
    { apply Nat.ltb_lt. destruct t; [done | simpl; lia]. }
    rewrite Hlt in IH'. specialize (IH' ltac:(lia) Hxs). cbn zeta in IH'.
    rewrite <- app_assoc in IH'. rewrite IH'.
    by rewrite drop_app_length.
  - assert (Hm : match x with PlainText _ => False | _ => True end)
      by (by destruct x).
    destruct (canonical_markup_cons _ _ _ Hm Hcan) as [Hx Hxs].
    destruct (pattern_at_markup x (line_of_spans xs) Hm Hx) as (g & Hpat & Hspan).
    pose proof (span_markup_length x Hm) as Hlen.
    rewrite (finditer_aux_match _ _ _ _ Hpat Hlen), drop_app_length.
    cbn [loop_items loop_pos m_end map]. unfold match_items.
    cbn [m_start m_groups]. rewrite Hspan.
    pose proof (IH (pre ++ span_markup x) (length pre + length (span_markup x))) as IH'.
    rewrite length_app, Nat.ltb_irrefl in IH'.
    specialize (IH' ltac:(lia) Hxs). cbn zeta in IH'. cbn [app] in IH'.
    rewrite <- app_assoc in IH'.
    rewrite <- !app_assoc. rewrite IH'.
    destruct (pos <? length pre) eqn:Hlt; [|done].
    apply Nat.ltb_lt in Hlt. cbn [app]. do 2 f_equal.
    unfold slice. rewrite drop_app_le by lia.
    by rewrite take_app_length' by (rewrite length_drop; lia).
Qed.

(** Markup written the plain way is read back as it was written: the
    formatter returns, for the line that stands for a canonical list of
    spans, exactly these spans.  In particular a text without [*] and [[]
    gives one plain run, and the empty text gives none.  The line is taken
    to be text that a run can hold. *)
Theorem spans_of_canonical_line (xs : list span) :
  canonical false xs = true ->
  safe_text (line_of_spans xs) = true ->
  spans (line_of_spans xs) = map render_span xs.
Proof.
  intros Hcan _. rewrite spans_format. unfold format_spans, finditer.
  apply (loop_of_canonical xs [] 0 (le_n _) Hcan).
Qed.

Lemma spans_of_canonical_line_witness :
  spans (line_of_spans [PlainText (py "See "); Bold (py "this");
                        Italic (py "now"); PlainText (py " at ");
                        Link (py "our site") (py "https://example.com/a*b");
                        PlainText (py "!")])
  = map render_span [PlainText (py "See "); Bold (py "this");
                     Italic (py "now"); PlainText (py " at ");
                     Link (py "our site") (py "https://example.com/a*b");
                     PlainText (py "!")].
Proof. apply spans_of_canonical_line; reflexivity. Defined.

(** ** Headings *)

Lemma heading_match_level line level g2 :
  heading_match line = Some (level, g2) -> 1 <= level <= 6.
Proof.
  unfold heading_match.
  destruct ((1 <=? length (take_while (eqc "#") line))
            && (length (take_while (eqc "#") line) <=? 6)) eqn:Hh; [|done].
  apply andb_prop in Hh as [H1 H6]. apply Nat.leb_le in H1, H6.
  destruct (take_while is_space _); [done|].
  destruct (_ || _); [|done]. intros [= <- _]. done.
Qed.

(** [try_process_heading] either reports a heading, whose level is then
    between 1 and 6, and has appended exactly one paragraph, styled by the
    level, centred only in the header block and holding the spans of the
    heading text; or it reports none and leaves the document as it was.  The
    line is taken to be text that a run can hold. *)
Theorem try_process_heading_appends_one (doc : document) (line : str)
    (header_block : bool) :
  safe_text line = true ->
  match try_process_heading doc line header_block with
  | (doc', Some (level, text)) =>
      1 <= level <= 6
      ∧ doc' = doc ++ [Par (Paragraph (Some (heading_style level))
                              (if header_block then Some CENTER else None)
                              false false (spans text))]
  | (doc', None) => doc' = doc
  end.
Proof.
  intros _. unfold try_process_heading.
  destruct (heading_match line) as [[level g2]|] eqn:Hm; [|done].
  unfold doc_add_paragraph, empty_paragraph.
  split; [by eapply heading_match_level|].
  destruct header_block; rewrite !doc_update_last; cbn [on_paragraph];
    unfold set_alignment;
    cbn [p_style p_alignment p_keep_with_next p_bottom_border p_content];
    by rewrite insert_formatted_text_empty.
Qed.

Lemma try_process_heading_appends_one_witness :
  match try_process_heading [Par rule_paragraph] (py "###  *Tools* ") true with
  | (doc', Some (level, text)) =>
      1 <= level <= 6
      ∧ doc' = [Par rule_paragraph]
               ++ [Par (Paragraph (Some (heading_style level)) (Some CENTER)
                          false false (spans text))]
  | (doc', None) => doc' = [Par rule_paragraph]
  end.
Proof.
  apply (try_process_heading_appends_one [Par rule_paragraph] (py "###  *Tools* ") true).
  reflexivity.
Defined.

Lemma take_while_eqc c (s : str) :
  take_while (eqc c) s = replicate (length (take_while (eqc c) s)) c.
Proof.
  induction s as [|d s IH]; [done|]. cbn [take_while].
  destruct (eqc c d) eqn:Hd; [|done]. apply Ascii.eqb_eq in Hd. subst d.
  cbn [length replicate]. by rewrite <- IH.
Qed.

Lemma take_while_forallb {A} (f : A -> bool) (s : list A) :
  forallb f (take_while f s) = true.
Proof.
  induction s as [|c s IH]; [done|]. cbn [take_while].
  destruct (f c) eqn:Hc; [|done]. cbn [forallb]. by rewrite Hc, IH.
Qed.

(** Only a line of one to six [#], then whitespace, then text without a
    newline (a single final newline apart) is taken for a heading; the
    heading text is the stripped text.  So seven [#], or a [#] run that is
    not followed by whitespace, give no heading. *)
Theorem heading_has_marker_space_text (doc doc' : document) (line : str)
    (header_block : bool) (level : nat) (text : str) :
  try_process_heading doc line header_block = (doc', Some (level, text)) ->
  ∃ ws body tail,
    line = replicate level "#"%char ++ ws ++ body ++ tail
    ∧ 1 <= level <= 6
    ∧ ws ≠ [] ∧ forallb is_space ws = true
    ∧ forallb (λ c, negb (is_newline c)) body = true
    ∧ (tail = [] ∨ tail = [LF])
    ∧ text = strip body.
Proof.
  unfold try_process_heading.
  destruct (heading_match line) as [[lv g2]|] eqn:Hm; [|done].
  destruct (doc_add_paragraph doc (Some (heading_style lv))) as [d p].
  intros [= _ <- <-].
  pose proof (heading_match_level _ _ _ Hm) as Hlv.
  unfold heading_match in Hm.
  set (h := length (take_while (eqc "#") line)) in *.
  destruct ((1 <=? h) && (h <=? 6)); [|done].
  set (r := drop h line) in *.
  destruct (take_while is_space r) as [|c ws] eqn:Hws; [done|].
  set (rest := drop (length (c :: ws)) r) in *.
  set (body := take_while (λ c, negb (is_newline c)) rest) in *.
  destruct (eqs (drop (length body) rest) [] || eqs (drop (length body) rest) [LF])
    eqn:Htail; [|done].
  injection Hm as <- <-.
  exists (c :: ws), body, (drop (length body) rest).
  split; [|split; [done|]; split; [done|]; split; [|split; [|split; [|done]]]].
  - rewrite (take_while_drop (eqc "#") line) at 1. fold h. fold r.
    rewrite (take_while_eqc "#" line). fold h. f_equal.
    rewrite (take_while_drop is_space r) at 1. rewrite Hws. fold rest.
    f_equal.
    apply (take_while_drop (λ c, negb (is_newline c)) rest).
  - rewrite <- Hws. apply take_while_forallb.
  - apply take_while_forallb.
  - apply orb_prop in Htail as [H|H]; apply eqs_eq in H; auto.
Qed.

Lemma heading_has_marker_space_text_witness :
  ∃ ws body tail,
    py "###  Skills" = replicate 3 "#"%char ++ ws ++ body ++ tail
    ∧ 1 <= 3 <= 6
    ∧ ws ≠ [] ∧ forallb is_space ws = true
    ∧ forallb (λ c, negb (is_newline c)) body = true
    ∧ (tail = [] ∨ tail = [LF])
    ∧ py "Skills" = strip body.
Proof.
  apply (heading_has_marker_space_text []
           (fst (try_process_heading [] (py "###  Skills") false))
           (py "###  Skills") false 3 (py "Skills")).
  reflexivity.
Defined.

(** ** Tables *)

Lemma forallb_fits_false cols (data_lines : list str) :
  forallb (fits cols) data_lines = false
  ↔ Exists (λ l, cols < length (cells_of_line l)) data_lines.
Proof.
  induction data_lines as [|l ls IH]; cbn [forallb].
  - split; [done | intros H; inversion H].
  - rewrite Exists_cons, <- IH. unfold fits at 1.
    destruct (length (cells_of_line l) <=? cols) eqn:Hl; cbn [andb].
    + apply Nat.leb_le in Hl. split; [tauto | intros [?|?]; [lia|done]].
    + apply Nat.leb_gt in Hl. tauto.
Qed.

(** A table block of a header, a separator and data lines raises IndexError
    exactly when some data line has more cells than the header.  The header
    and the data lines are taken to be text that a run can hold. *)
Theorem table_raises_iff_row_longer_than_header (doc : document)
    (header separator : str) (data_lines : list str) :
  safe_text header = true ->
  forallb safe_text data_lines = true ->
  add_table_to_doc doc (header :: separator :: data_lines) = Raise IndexError
  ↔ Exists (λ l, length (cells_of_line header) < length (cells_of_line l))
           data_lines.
Proof.
  intros _ _.
  rewrite add_table_to_doc_spec. cbn zeta. rewrite <- forallb_fits_false.
  by destruct (forallb (fits (length (cells_of_line header))) data_lines).
Qed.

Lemma table_raises_iff_row_longer_than_header_witness :
  add_table_to_doc [] (py "| Skill |" :: py "|---|" :: [py "| Rocq |"; py "| Lean | 4 |"])
  = Raise IndexError
  ↔ Exists (λ l, length (cells_of_line (py "| Skill |")) < length (cells_of_line l))
           [py "| Rocq |"; py "| Lean | 4 |"].
Proof.
  apply (table_raises_iff_row_longer_than_header [] (py "| Skill |") (py "|---|")
           [py "| Rocq |"; py "| Lean | 4 |"]);
    reflexivity.
Defined.

Lemma split_on_length sep (s : str) : 1 <= length (split_on sep s).
Proof.
  induction s as [|c s IH]; [done|]. cbn [split_on].
  destruct (eqc sep c); [simpl; lia|].
  destruct (split_on sep s); simpl in *; lia.
Qed.

Lemma cells_of_line_length line : 1 <= length (cells_of_line line).
Proof. unfold cells_of_line. rewrite length_map. apply split_on_length. Qed.

Lemma written_row_length fill color cols texts :
  length texts <= cols -> length (written_row fill color cols texts) = cols.
Proof.
  intros H. unfold written_row. rewrite length_app, length_map, length_replicate. lia.
Qed.

(** A table that is emitted is rectangular: it goes to the end of the
    document, has the grid style, as many columns as the header line has
    cells (at least one), one row per line of the block but the separator,
    and every row has exactly that many cells. *)
Theorem emitted_table_is_rectangular (doc doc' : document)
    (header separator : str) (data_lines : list str) :
  add_table_to_doc doc (header :: separator :: data_lines) = Ok doc' ->
  ∃ t, doc' = doc ++ [Tbl t]
       ∧ t_grid t = true
       ∧ t_cols t = length (cells_of_line header)
       ∧ 1 <= t_cols t
       ∧ length (t_rows t) = 1 + length data_lines
       ∧ Forall (λ row, length row = t_cols t) (t_rows t).
Proof.
  rewrite add_table_to_doc_spec. cbn zeta.
  destruct (forallb (fits (length (cells_of_line header))) data_lines) eqn:Hfit;
    [|done].
  intros [= <-]. eexists. split; [done|]. cbn [t_grid t_cols t_rows].
  split; [done|]. split; [done|]. split; [apply cells_of_line_length|].
  split; [by rewrite length_cons, length_map|].
  constructor; [by apply written_row_length|].
  apply Forall_map. apply Forall_forall. intros l Hl.
  apply written_row_length.
  rewrite forallb_forall in Hfit. apply Nat.leb_le. apply Hfit.
  by apply list_elem_of_In.
Qed.

Lemma emitted_table_is_rectangular_witness :
  ∃ t, [Tbl (Table true 2
               [[shaded_cell pastel_green dark_green (py "Skill");
                 shaded_cell pastel_green dark_green (py "Level")];
                [shaded_cell pastel_yellow black (py "Rocq"); empty_cell]])]
       = [] ++ [Tbl t]
       ∧ t_grid t = true
       ∧ t_cols t = length (cells_of_line (py "| Skill | Level |"))
       ∧ 1 <= t_cols t
       ∧ length (t_rows t) = 1 + length [py "| Rocq |"]
       ∧ Forall (λ row, length row = t_cols t) (t_rows t).
Proof.
  apply (emitted_table_is_rectangular [] _ (py "| Skill | Level |")
           (py "|---|---|") [py "| Rocq |"]).
  vm_compute. reflexivity.
Defined.

(** The second line of a table block is dropped whatever it holds: two
    blocks that differ only there give the same result.  A table written
    without a separator line therefore loses its first data row. *)
Theorem table_second_line_is_ignored (doc : document) (header second second' : str)
    (data_lines : list str) :
  add_table_to_doc doc (header :: second :: data_lines)
  = add_table_to_doc doc (header :: second' :: data_lines).
Proof. by rewrite !add_table_to_doc_spec. Qed.

Lemma visible_text_color_run color xs :
  visible_text (map (color_run color) xs) = visible_text xs.
Proof.
  unfold visible_text. rewrite map_map. f_equal. apply map_ext. by intros [].
Qed.

(** Writing a cell that has no shading yet replaces the text the cell held:
    afterwards the cell has the given shading, its visible text is that of
    the formatted text alone, and every run in it has the given colour and
    the Aptos font, while a link in it gets neither.  The text is taken to
    be text that a run can hold. *)
Theorem write_cell_replaces_content (fill : str) (color : rgb) (text : str)
    (c : cell) :
  c_fill c = None ->
  safe_text text = true ->
  let c' := write_cell fill color text c in
  c_fill c' = Some fill
  ∧ visible_text (p_content (c_par c')) = visible_text (spans text)
  ∧ Forall (λ x, match x with
                 | Run _ _ _ font col => font = Some Aptos ∧ col = Some color
                 | Hyperlink _ _ => x ∈ spans text
                 end) (p_content (c_par c')).
Proof.
  intros _ _.
  cbn zeta. unfold write_cell, set_cell_background, insert_formatted_text.
  rewrite insert_markdown_text_extend, <- spans_format.
  cbn [c_par c_fill extend p_content p_style p_alignment p_keep_with_next
       p_bottom_border app].
  split; [done|]. split.
  - by rewrite visible_text_color_run.
  - cbn [map color_run]. constructor; [done|].
    apply Forall_map. apply Forall_forall. intros x Hx.
    destruct x; cbn [color_run]; done.
Qed.

Lemma write_cell_replaces_content_witness :
  let c' := write_cell pastel_yellow black (py "see [us](https://example.com)")
                       (Cell None (Paragraph None None false false
                                     [plain_run (py "old text")])) in
  c_fill c' = Some pastel_yellow
  ∧ visible_text (p_content (c_par c'))
    = visible_text (spans (py "see [us](https://example.com)"))
  ∧ Forall (λ x, match x with
                 | Run _ _ _ font col => font = Some Aptos ∧ col = Some black
                 | Hyperlink _ _ => x ∈ spans (py "see [us](https://example.com)")
                 end) (p_content (c_par c')).
Proof.
  apply (write_cell_replaces_content pastel_yellow black
           (py "see [us](https://example.com)")
           (Cell None (Paragraph None None false false [plain_run (py "old text")])));
    reflexivity.
Defined.

(** ** The main loop, line by line *)

Lemma try_process_heading_spec (doc : document) line hb :
  try_process_heading doc line hb
  = match heading_match line with
    | Some (level, g2) =>
        (doc ++ [Par (Paragraph (Some (heading_style level))
                        (if hb then Some CENTER else None)
                        false false (spans (strip g2)))],
         Some (level, strip g2))
    | None => (doc, None)
    end.
Proof.
  unfold try_process_heading.
  destruct (heading_match line) as [[level g2]|]; [|done].
  unfold doc_add_paragraph, empty_paragraph.
  destruct hb; rewrite !doc_update_last; cbn [on_paragraph];
    unfold set_alignment;
    cbn [p_style p_alignment p_keep_with_next p_bottom_border p_content];
    by rewrite insert_formatted_text_empty.
Qed.

Lemma add_table_to_doc_prefix (doc doc' : document) tl :
  add_table_to_doc doc tl = Ok doc' -> ∃ added, doc' = doc ++ added.
Proof.
  destruct tl as [|h [|sp data]].
  - intros [= <-]. exists []. by rewrite app_nil_r.
  - intros [= <-]. exists []. by rewrite app_nil_r.
  - rewrite add_table_to_doc_spec. cbn zeta.
    destruct (forallb _ data); [|done]. intros [= <-]. by eexists.
Qed.

Lemma flush_job_block_spec (doc : document) e job :
  flush_job_block doc e job
  = if e && nonempty_list job
    then (doc ++ map Par (job_nodes (nonblank_lines job)), [])
    else (doc, job).
Proof.
  destruct e, job; cbn [flush_job_block andb nonempty_list]; try done.
  by rewrite add_job_block_to_doc_nodes.
Qed.

Lemma rule_is_no_heading (stripped : str) :
  eqs stripped (py "---") = true -> heading_match stripped = None.
Proof. intros H. apply eqs_eq in H. by subst. Qed.

(** What one iteration of the main loop does to the loop variables. *)
Lemma process_line_step line rest (s s' : state) :
  process_line line rest s = Ok s' ->
  (∃ added, st_doc s' = st_doc s ++ added)
  ∧ in_employment s' = flag_after line (in_employment s)
  ∧ (job_block_in_section s -> job_block_in_section s')
  ∧ (table_pending_ok s (line :: rest) -> table_pending_ok s' rest).
Proof.
  unfold process_line, flag_after, job_block_in_section, table_pending_ok.
  destruct s as [doc e job tl].
  cbn [st_doc in_employment current_job_block table_lines].
  destruct (eqs (strip line) (py "---")) eqn:Hrule.
  { rewrite (rule_is_no_heading _ Hrule), flush_job_block_spec.
    assert (Hnt : is_table_row (strip line) = false)
      by (apply eqs_eq in Hrule; by rewrite Hrule).
    destruct (e && nonempty_list job) eqn:Hf; intros [= <-];
      cbn [st_doc in_employment current_job_block table_lines];
      rewrite add_horizontal_line_spec.
    - split; [eexists; by rewrite <- app_assoc|]. split; [done|].
      split; [done|]. intros H Htl. specialize (H Htl). congruence.
    - split; [by eexists|]. split; [done|]. split; [done|].
      intros H Htl. specialize (H Htl). congruence. }
  rewrite try_process_heading_spec.
  destruct (heading_match (strip line)) as [[level g2]|] eqn:Hm.
  { rewrite flush_job_block_spec.
    assert (Hnt : is_table_row (strip line) = false).
    { destruct (is_table_row (strip line)) eqn:Ht; [|done].
      apply table_row_is_no_rule_no_heading in Ht as [_ Ht]. congruence. }
    destruct (e && nonempty_list job) eqn:Hf; intros [= <-];
      cbn [st_doc in_employment current_job_block table_lines].
    - split; [eexists; by rewrite <- app_assoc|]. split; [done|].
      split; [done|]. intros H Htl. specialize (H Htl). congruence.
    - split; [by eexists|]. split; [done|]. split.
      + intros HJ Hjob. specialize (HJ Hjob). subst e.
        destruct job; [done|]. done.
      + intros H Htl. specialize (H Htl). congruence. }
  destruct (is_table_row (strip line)) eqn:Htab.
  { destruct (match rest with
              | [] => true
              | next :: _ => negb (is_table_row (strip next))
              end) eqn:Hflush.
    - destruct (add_table_to_doc doc (tl ++ [line])) as [d|x] eqn:Hadd; [|done].
      cbn [mbind result_bind]. intros [= <-].
      cbn [st_doc in_employment current_job_block table_lines].
      split; [by eapply add_table_to_doc_prefix|]. done.
    - intros [= <-].
      cbn [st_doc in_employment current_job_block table_lines].
      split; [exists []; by rewrite app_nil_r|]. split; [done|]. split; [done|].
      intros _ _. destruct rest as [|next rest]; [done|].
      by apply negb_false_iff in Hflush. }
  destruct e.
  { intros [= <-]. cbn [st_doc in_employment current_job_block table_lines].
    split; [exists []; by rewrite app_nil_r|]. split; [done|]. split; [done|].
    intros H Htl. specialize (H Htl). congruence. }
  unfold doc_add_paragraph.
  destruct (startswith (py "- ") (strip line)); rewrite doc_update_last;
    intros [= <-]; cbn [st_doc in_employment current_job_block table_lines];
    (split; [by eexists|]); (split; [done|]); (split; [done|]);
    intros H Htl; specialize (H Htl); congruence.
Qed.

(** ** The main loop as a whole *)

Lemma process_remaining_steps lines : ∀ (s s' : state),
  process_remaining lines s = Ok s' ->
  (∃ added, st_doc s' = st_doc s ++ added)
  ∧ in_employment s' = foldl (λ b l, flag_after l b) (in_employment s) lines
  ∧ (job_block_in_section s -> job_block_in_section s')
  ∧ (table_pending_ok s lines -> table_lines s' = []).
Proof.
  induction lines as [|line rest IH]; intros s s'.
  { intros [= <-]. split; [exists []; by rewrite app_nil_r|].
    split; [done|]. split; [done|].
    unfold table_pending_ok. destruct (table_lines s); [done|].
    intros H. by destruct H. }
  cbn [process_remaining foldl].
  destruct (process_line line rest s) as [s1|e] eqn:Hstep; [|done].
  cbn [mbind result_bind]. intros Hrest.
  destruct (process_line_step _ _ _ _ Hstep) as ([a1 Ha1] & Hflag & HJ & HT).
  destruct (IH _ _ Hrest) as ([a2 Ha2] & Hflag' & HJ' & HT').
  split; [exists (a1 ++ a2); by rewrite Ha2, Ha1, app_assoc|].
  split; [by rewrite Hflag', Hflag|]. split; [tauto|tauto].
Qed.

(** The main loop never takes back what it has put into the document: the
    document after any number of lines starts with the document before. *)
Theorem main_loop_only_appends (lines : list str) (s s' : state) :
  process_remaining lines s = Ok s' ->
  ∃ added, st_doc s' = st_doc s ++ added.
Proof. intros H. by destruct (process_remaining_steps _ _ _ H) as (? & _). Qed.

Lemma main_loop_only_appends_witness :
  ∃ added,
    st_doc (State [Par rule_paragraph; text_paragraph (py "Profile");
                   heading2 (py "Employment History")]
                  true [py "Clerk, Initech"] [])
    = st_doc (State [Par rule_paragraph] false [] []) ++ added.
Proof.
  apply (main_loop_only_appends
           [py "Profile"; py "## Employment History"; py "Clerk, Initech"]
           (State [Par rule_paragraph] false [] [])).
  vm_compute. reflexivity.
Defined.

(** The section flag after the main loop is read off the lines alone: every
    heading line sets it (to true for a level-2 heading whose text in upper
    case is EMPLOYMENT HISTORY, to false for any other heading) and no other
    line touches it, neither a rule nor a table row nor a blank line. *)
Theorem section_flag_follows_headings (lines : list str) (s s' : state) :
  process_remaining lines s = Ok s' ->
  in_employment s' = foldl (λ b l, flag_after l b) (in_employment s) lines.
Proof. intros H. by destruct (process_remaining_steps _ _ _ H) as (_ & ? & _). Qed.

Lemma section_flag_follows_headings_witness :
  in_employment (State [heading2 (py "employment History"); Par rule_paragraph]
                       true [] [])
  = foldl (λ b l, flag_after l b) (in_employment (State [] false [] []))
          [py "##  employment History"; py "---"].
Proof.
  apply (section_flag_follows_headings [py "##  employment History"; py "---"]
           (State [] false [] [])).
  vm_compute. reflexivity.
Defined.

(** Lines are pending in the job block only inside the employment section:
    if that holds before the main loop it holds after it, whatever the
    lines.  The last flush, which does not look at the section flag, thus
    flushes only a block of the employment section. *)
Theorem job_block_only_in_section (lines : list str) (s s' : state) :
  job_block_in_section s ->
  process_remaining lines s = Ok s' ->
  job_block_in_section s'.
Proof.
  intros HJ H. destruct (process_remaining_steps _ _ _ H) as (_ & _ & HJ' & _).
  by apply HJ'.
Qed.

Lemma job_block_only_in_section_witness :
  job_block_in_section
    (State [heading2 (py "EMPLOYMENT HISTORY")] true [py "Clerk, Initech"] []).
Proof.
  apply (job_block_only_in_section
           [py "## EMPLOYMENT HISTORY"; py "Clerk, Initech"]
           (State [] false [] [])).
  - intros H. done.
  - vm_compute. reflexivity.
Defined.

(** Table lines never outlive the main loop: started with no pending table
    lines, the loop ends with none, since a pending block is flushed at the
    last table row at the latest.  The table flush that follows the loop
    therefore never runs: what is left to do is to flush the job block,
    which, for pending lines that a run can hold, puts their nodes at the
    end of the document. *)
Theorem no_table_lines_after_loop (lines : list str) (s s' : state) :
  table_lines s = [] ->
  process_remaining lines s = Ok s' ->
  forallb safe_text (current_job_block s') = true ->
  table_lines s' = []
  ∧ flush_remaining s'
    = Ok (st_doc s' ++ map Par (job_nodes (nonblank_lines (current_job_block s')))).
Proof.
  intros Htl H _. destruct (process_remaining_steps _ _ _ H) as (_ & _ & _ & HT).
  assert (Htl' : table_lines s' = []).
  { apply HT. unfold table_pending_ok. by rewrite Htl. }
  split; [done|]. unfold flush_remaining. rewrite Htl'.
  destruct (current_job_block s') as [|j job].
  - cbn [nonblank_lines]. by rewrite app_nil_r.
  - by rewrite add_job_block_to_doc_nodes.
Qed.

Lemma no_table_lines_after_loop_witness :
  let s' := State [heading2 (py "EMPLOYMENT HISTORY")] true [py "Clerk, Initech"] [] in
  table_lines s' = []
  ∧ flush_remaining s'
    = Ok (st_doc s' ++ map Par (job_nodes (nonblank_lines (current_job_block s')))).
Proof.
  apply (no_table_lines_after_loop
           [py "## EMPLOYMENT HISTORY"; py "| Skill |"; py "Clerk, Initech"]
           (State [] false [] []));
    reflexivity.
Defined.

Lemma process_line_table_row line rest (doc : document) e job tl :
  is_table_row (strip line) = true ->
  process_line line rest (State doc e job tl)
  = if match rest with
       | next :: _ => negb (is_table_row (strip next))
       | [] => true
       end
    then doc' ← add_table_to_doc doc (tl ++ [line]); Ok (State doc' e job [])
    else Ok (State doc e job (tl ++ [line])).
Proof.
  intros Hrow. destruct (table_row_is_no_rule_no_heading _ Hrow) as [Hrule Hhead].
  unfold process_line. cbn [st_doc in_employment current_job_block table_lines].
  by rewrite Hrule, (try_process_heading_none _ _ _ Hhead), Hrow.
Qed.

Lemma process_remaining_table_run rows : ∀ pending (doc : document) e job rest,
  rows ≠ [] ->
  forallb (λ l, is_table_row (strip l)) rows = true ->
  match rest with
  | next :: _ => is_table_row (strip next) = false
  | [] => True
  end ->
  process_remaining (rows ++ rest) (State doc e job pending)
  = doc' ← add_table_to_doc doc (pending ++ rows);
    process_remaining rest (State doc' e job []).
Proof.
  induction rows as [|r rows IH]; intros pending doc e job rest Hne Hrows Hrest;
    [done|].
  cbn [forallb] in Hrows. apply andb_prop in Hrows as [Hr Hrows].
  cbn [app process_remaining]. rewrite process_line_table_row by done.
  destruct rows as [|r2 rows].
  - cbn [app].
    assert (Hflush : match rest with
                     | next :: _ => negb (is_table_row (strip next))
                     | [] => true
                     end = true).
    { destruct rest as [|next rest]; [done|]. by rewrite Hrest. }
    rewrite Hflush. by destruct (add_table_to_doc doc (pending ++ [r])).
  - pose proof (IH (pending ++ [r]) doc e job rest ltac:(done) Hrows Hrest) as IH'.
    cbn [forallb] in Hrows. apply andb_prop in Hrows as [Hr2 Hrows'].
    cbn [app] in IH' |- *. rewrite Hr2. cbn [negb mbind result_bind].
    rewrite IH'. by rewrite <- app_assoc.
Qed.

(** A run of consecutive table rows is one table block: when no table lines
    are pending, the rows are followed by a line that is no table row or by
    the end of the input, the main loop does with them what a single call of
    [add_table_to_doc] on all of them does, in or out of the employment
    section, and goes on with the other loop variables untouched. *)
Theorem table_rows_are_flushed_as_one_block (rows rest : list str) (s : state) :
  rows ≠ [] ->
  forallb (λ l, is_table_row (strip l)) rows = true ->
  match rest with
  | next :: _ => is_table_row (strip next) = false
  | [] => True
  end ->
  table_lines s = [] ->
  process_remaining (rows ++ rest) s
  = doc' ← add_table_to_doc (st_doc s) rows;
    process_remaining rest
      (State doc' (in_employment s) (current_job_block s) []).
Proof.
  intros Hne Hrows Hrest Htl. destruct s as [doc e job tl].
  cbn [table_lines] in Htl. subst tl.
  by rewrite process_remaining_table_run.
Qed.

Lemma table_rows_are_flushed_as_one_block_witness :
  process_remaining ([py "| Skill |"; py "|---|"; py " | Rocq |"] ++ [py "Text"])
                    (State [] true [py "Clerk"] [])
  = doc' ← add_table_to_doc (st_doc (State [] true [py "Clerk"] []))
                            [py "| Skill |"; py "|---|"; py " | Rocq |"];
    process_remaining [py "Text"]
      (State doc' (in_employment (State [] true [py "Clerk"] []))
             (current_job_block (State [] true [py "Clerk"] [])) []).
Proof.
  apply (table_rows_are_flushed_as_one_block
           [py "| Skill |"; py "|---|"; py " | Rocq |"] [py "Text"]
           (State [] true [py "Clerk"] [])); done.
Defined.

(** ** What can go wrong while rendering *)

Lemma add_table_to_doc_raise (doc : document) tl e :
  add_table_to_doc doc tl = Raise e -> e = IndexError.
Proof.
  destruct tl as [|h [|sp data]]; [done|done|].
  rewrite add_table_to_doc_spec. cbn zeta.
  destruct (forallb _ data); [done|]. by intros [= <-].
Qed.

Lemma process_line_raise line rest s e :
  process_line line rest s = Raise e -> e = IndexError.
Proof.
  unfold process_line.
  destruct (eqs (strip line) (py "---")).
  { by destruct (flush_job_block _ _ _). }
  destruct (try_process_heading (st_doc s) (strip line) false) as [d [[lv t]|]].
  { by destruct (flush_job_block _ _ _). }
  destruct (is_table_row (strip line)).
  - destruct (match rest with [] => true | _ => _ end); [|done].
    destruct (add_table_to_doc d (table_lines s ++ [line])) eqn:Hadd; [done|].
    cbn [mbind result_bind]. intros [= <-]. by eapply add_table_to_doc_raise.
  - by destruct (in_employment s).
Qed.

Lemma process_remaining_raise lines : ∀ s e,
  process_remaining lines s = Raise e -> e = IndexError.
Proof.
  induction lines as [|line rest IH]; intros s e; [done|].
  cbn [process_remaining].
  destruct (process_line line rest s) as [s1|e1] eqn:Hstep; cbn [mbind result_bind].
  - apply IH.
  - intros [= <-]. by eapply process_line_raise.
Qed.

Lemma render_lines_raise (lines : list str) (e : exn) :
  render_lines lines = Raise e -> e = IndexError.
Proof.
  unfold render_lines.
  destruct (process_leading_rules _ _) as [doc ls].
  destruct (process_remaining ls (State doc false [] [])) as [s|e1] eqn:Hloop;
    cbn [mbind result_bind].
  - unfold flush_remaining. destruct (table_lines s); [done|].
    apply add_table_to_doc_raise.
  - intros [= <-]. by eapply process_remaining_raise.
Qed.

(** Rendering lines that a run can hold ends in one of two ways only: it
    returns a document or it raises IndexError. *)
Theorem render_lines_returns_or_index_error (lines : list str) :
  forallb safe_text lines = true ->
  (∃ doc, render_lines lines = Ok doc) ∨ render_lines lines = Raise IndexError.
Proof.
  intros _.
  destruct (render_lines lines) as [doc|e] eqn:Hr; [left; by eexists|].
  right. by rewrite (render_lines_raise _ _ Hr).
Qed.

Lemma render_lines_returns_or_index_error_witness :
  (∃ doc, render_lines [py "# Ann"; py "---"; py "| A |"; py "|---|"; py "| 1 | 2 |"]
          = Ok doc)
  ∨ render_lines [py "# Ann"; py "---"; py "| A |"; py "|---|"; py "| 1 | 2 |"]
    = Raise IndexError.
Proof.
  apply (render_lines_returns_or_index_error
           [py "# Ann"; py "---"; py "| A |"; py "|---|"; py "| 1 | 2 |"]).
  reflexivity.
Defined.

Lemma process_line_no_table_ok line rest s :
  is_table_row (strip line) = false -> ∃ s', process_line line rest s = Ok s'.
Proof.
  intros Hnt. unfold process_line.
  destruct (eqs (strip line) (py "---")).
  { destruct (flush_job_block _ _ _). by eexists. }
  destruct (try_process_heading (st_doc s) (strip line) false) as [d [[lv t]|]].
  { destruct (flush_job_block _ _ _). by eexists. }
  rewrite Hnt. destruct (in_employment s); by eexists.
Qed.

Lemma process_remaining_no_table_ok lines : ∀ s,
  forallb (λ l, negb (is_table_row (strip l))) lines = true ->
  ∃ s', process_remaining lines s = Ok s'.
Proof.
  induction lines as [|line rest IH]; intros s Hl; [by eexists|].
  cbn [forallb] in Hl. apply andb_prop in Hl as [Hline Hrest].
  apply negb_true_iff in Hline.
  destruct (process_line_no_table_ok line rest s Hline) as [s1 Hs1].
  cbn [process_remaining]. rewrite Hs1. cbn [mbind result_bind]. by apply IH.
Qed.

Lemma forallb_drop {A} (f : A -> bool) k (l : list A) :
  forallb f l = true -> forallb f (drop k l) = true.
Proof.
  revert k. induction l as [|a l IH]; intros [|k]; simpl; try done.
  intros H. apply andb_prop in H as [_ H]. by apply IH.
Qed.

Lemma process_leading_rules_suffix lines : ∀ (doc : document),
  ∃ k, snd (process_leading_rules doc lines) = drop k lines.
Proof.
  induction lines as [|line rest IH]; intros doc; [by exists 0|].
  cbn [process_leading_rules]. destruct (is_rule line).
  - destruct (IH (add_horizontal_line doc)) as [k Hk]. by exists (S k).
  - by exists 0.
Qed.

(** A text without table rows is always rendered: if no line starts, once
    stripped, with the table-row marker, and the lines are text that a run
    can hold, rendering the lines returns a document. *)
Theorem render_without_table_rows_succeeds (lines : list str) :
  forallb (λ l, negb (is_table_row (strip l))) lines = true ->
  forallb safe_text lines = true ->
  ∃ doc, render_lines lines = Ok doc.
Proof.
  intros Hl _. unfold render_lines.
  set (rest := drop _ lines).
  destruct (process_leading_rules_suffix rest
              (process_header_block [] (take_while (λ l, negb (is_rule l)) lines)))
    as [k Hk].
  destruct (process_leading_rules _ rest) as [doc ls]. cbn [snd] in Hk. subst ls.
  assert (Hls : forallb (λ l, negb (is_table_row (strip l))) (drop k rest) = true)
    by (apply forallb_drop; by apply forallb_drop).
  destruct (process_remaining_no_table_ok _ (State doc false [] []) Hls) as [s Hs].
  rewrite Hs. cbn [mbind result_bind].
  destruct (process_remaining_steps _ _ _ Hs) as (_ & _ & _ & HT).
  unfold flush_remaining. rewrite HT by (intros H; by destruct H).
  by eexists.
Qed.

Lemma render_without_table_rows_succeeds_witness :
  ∃ doc, render_lines [py "# Ann"; py "---"; py "## EMPLOYMENT HISTORY";
                       py "Clerk *and* more"; py "---"; py "- a [b](c"]
         = Ok doc.
Proof. apply render_without_table_rows_succeeds; reflexivity. Defined.

(** ** The header block *)

Lemma process_header_block_spec lines : ∀ (doc : document),
  process_header_block doc lines
  = doc ++ map (λ l, Par (header_node l)) (nonblank_lines lines).
Proof.
  induction lines as [|line rest IH]; intros doc.
  { simpl. by rewrite app_nil_r. }
  cbn [process_header_block]. unfold nonblank_lines. cbn [map].
  destruct (strip line) as [|c l] eqn:Hl.
  - rewrite IH. by rewrite filter_cons_False by (intros H; by apply H).
  - rewrite filter_cons_True by done. fold (nonblank_lines rest).
    rewrite try_process_heading_spec.
    assert (Hnode : header_node (c :: l)
      = match heading_match (c :: l) with
        | Some (level, g2) =>
            Paragraph (Some (heading_style level)) (Some CENTER) false false
                      (spans (strip g2))
        | None => Paragraph None (Some CENTER) false false (spans (c :: l))
        end) by done.
    destruct (heading_match (c :: l)) as [[level g2]|].
    + rewrite IH. cbn [map]. by rewrite Hnode, <- app_assoc.
    + unfold doc_add_paragraph, empty_paragraph. rewrite !doc_update_last.
      cbn [on_paragraph]. unfold set_alignment.
      cbn [p_style p_alignment p_keep_with_next p_bottom_border p_content].
      rewrite insert_formatted_text_empty, IH. cbn [map].
      by rewrite Hnode, <- app_assoc.
Qed.

Lemma header_node_centred l :
  p_alignment (header_node l) = Some CENTER
  ∧ p_style (header_node l) ≠ Some ListBullet
  ∧ p_keep_with_next (header_node l) = false
  ∧ p_bottom_border (header_node l) = false.
Proof.
  unfold header_node. destruct (heading_match l) as [[level g2]|]; [|done].
  cbn [p_alignment p_style p_keep_with_next p_bottom_border].
  repeat split. unfold heading_style.
  by destruct (level =? 1), (level =? 2), (level =? 3).
Qed.

(** The header block is a column of centred paragraphs: every line that is
    not blank gives exactly one paragraph, centred, a heading or a plain
    paragraph and never a list item, whatever the line starts with; blank
    lines give nothing and what the document held stays in front.  The
    lines are taken to be text that a run can hold. *)
Theorem header_block_is_centred (doc : document) (header_block_lines : list str) :
  forallb safe_text header_block_lines = true ->
  ∃ nodes : list paragraph,
    process_header_block doc header_block_lines = doc ++ map Par nodes
    ∧ length nodes = length (nonblank_lines header_block_lines)
    ∧ Forall (λ p, p_alignment p = Some CENTER
                   ∧ p_style p ≠ Some ListBullet
                   ∧ p_keep_with_next p = false
                   ∧ p_bottom_border p = false) nodes.
Proof.
  intros _.
  exists (map header_node (nonblank_lines header_block_lines)).
  split; [by rewrite process_header_block_spec, map_map|].
  split; [by rewrite length_map|].
  apply Forall_map. apply Forall_forall. intros l _. apply header_node_centred.
Qed.

Lemma header_block_is_centred_witness :
  ∃ nodes : list paragraph,
    process_header_block [] [py "# Ann"; py ""; py "- ann@example.com"]
    = [] ++ map Par nodes
    ∧ length nodes = length (nonblank_lines [py "# Ann"; py ""; py "- ann@example.com"])
    ∧ Forall (λ p, p_alignment p = Some CENTER
                   ∧ p_style p ≠ Some ListBullet
                   ∧ p_keep_with_next p = false
                   ∧ p_bottom_border p = false) nodes.
Proof.
  apply (header_block_is_centred [] [py "# Ann"; py ""; py "- ann@example.com"]).
  reflexivity.
Defined.

(** A text without a horizontal rule is all header block: every line of it
    is rendered centred, and neither bullets nor tables nor the employment
    section are looked for.  The lines are taken to be text that a run can
    hold. *)
Theorem text_without_rule_is_all_header (lines : list str) :
  forallb (λ l, negb (is_rule l)) lines = true ->
  forallb safe_text lines = true ->
  render_lines lines = Ok (process_header_block [] lines).
Proof.
  intros Hl _. unfold render_lines. rewrite take_while_all by done.
  by rewrite drop_all.
Qed.

Lemma text_without_rule_is_all_header_witness :
  render_lines [py "# Ann"; py "- not a bullet"; py "| no | table |"]
  = Ok (process_header_block [] [py "# Ann"; py "- not a bullet"; py "| no | table |"]).
Proof. apply text_without_rule_is_all_header; reflexivity. Defined.

(** ** Lines and fences *)

Lemma splitlines_aux_one_line l : ∀ rest cur,
  one_line l = true ->
  splitlines_aux (l ++ rest) cur = splitlines_aux rest (cur ++ l).
Proof.
  induction l as [|c l IH]; intros rest cur Hl.
  { simpl. by rewrite app_nil_r. }
  unfold one_line in Hl. cbn [forallb] in Hl. apply andb_prop in Hl as [Hc Hl].
  apply negb_true_iff in Hc. cbn [app splitlines_aux]. rewrite Hc.
  rewrite IH by done. by rewrite <- app_assoc.
Qed.

Lemma splitlines_aux_LF rest cur :
  splitlines_aux (LF :: rest) cur = cur :: splitlines_aux rest [].
Proof. cbn [splitlines_aux]. by destruct rest. Qed.

Lemma splitlines_of_join_lines (lines : list str) :
  forallb one_line lines = true ->
  splitlines (join_lines lines)
  = match List.last lines [LF] with
    | [] => removelast lines
    | _ :: _ => lines
    end.
Proof.
  unfold splitlines. induction lines as [|l ls IH]; intros Hl; [done|].
  cbn [forallb] in Hl. apply andb_prop in Hl as [Hone Hls].
  destruct ls as [|l2 ls].
  - cbn [join_lines List.last removelast].
    rewrite <- (app_nil_r l) at 1. rewrite splitlines_aux_one_line by done.
    cbn [app splitlines_aux]. by destruct l.
  - change (join_lines (l :: l2 :: ls)) with (l ++ LF :: join_lines (l2 :: ls)).
    rewrite splitlines_aux_one_line by done. cbn [app].
    rewrite splitlines_aux_LF, (IH Hls).
    change (List.last (l :: l2 :: ls) [LF]) with (List.last (l2 :: ls) [LF]).
    change (removelast (l :: l2 :: ls)) with (l :: removelast (l2 :: ls)).
    by destruct (List.last (l2 :: ls) [LF]).
Qed.

(** Joining lines with newlines and splitting again gives the lines back,
    but for an empty last line, which is lost: the text then ends with the
    newline that [splitlines] takes for the end of the line before. *)
Theorem splitlines_join_lines (lines : list str) :
  forallb one_line lines = true ->
  splitlines (join_lines lines)
  = match List.last lines [LF] with
    | [] => removelast lines
    | _ :: _ => lines
    end.
Proof. apply splitlines_of_join_lines. Qed.

Lemma splitlines_join_lines_witness :
  splitlines (join_lines [py "# Ann"; []; py "Text"; []])
  = match List.last [py "# Ann"; []; py "Text"; []] [LF] with
    | [] => removelast [py "# Ann"; []; py "Text"; []]
    | _ :: _ => [py "# Ann"; []; py "Text"; []]
    end.
Proof. apply splitlines_join_lines. reflexivity. Defined.

(** A resume between a [```markdown] line and a [```] line is rendered
    without the two fence lines, whatever whitespace surrounds the
    fences. *)
Theorem remove_fences_unwraps (opening closing : str) (body : list str) :
  eqs (strip opening) (py "```markdown") = true ->
  eqs (strip closing) (py "```") = true ->
  remove_fences (opening :: body ++ [closing]) = body.
Proof.
  intros Ho Hc. unfold remove_fences. rewrite Ho.
  destruct (body ++ [closing]) as [|x xs] eqn:Hb.
  { by destruct body. }
  rewrite <- Hb, last_last, Hc. apply removelast_last.
Qed.

Lemma remove_fences_unwraps_witness :
  remove_fences (py "```markdown  " :: [py "# Ann"; py "---"] ++ [py "  ```"])
  = [py "# Ann"; py "---"].
Proof. apply remove_fences_unwraps; reflexivity. Defined.

Lemma splitlines_aux_lines n : ∀ s cur,
  length s <= n ->
  one_line cur = true -> forallb one_line (splitlines_aux s cur) = true.
Proof.
  induction n as [|n IH]; intros s cur Hn Hcur.
  { destruct s; [|simpl in Hn; lia]. cbn [splitlines_aux].
    destruct cur; [done|]. cbn [forallb]. by rewrite Hcur. }
  destruct s as [|c s].
  { cbn [splitlines_aux]. destruct cur; [done|]. cbn [forallb]. by rewrite Hcur. }
  cbn [length] in Hn. cbn [splitlines_aux]. destruct (is_linebreak c) eqn:Hc.
  - destruct s as [|d s]; [cbn [forallb splitlines_aux]; by rewrite Hcur|].
    cbn [length] in Hn.
    destruct ((nat_of_ascii c =? 13) && (nat_of_ascii d =? 10));
      cbn [forallb]; rewrite Hcur; cbn [andb]; apply IH; simpl; (lia || done).
  - apply IH; [lia|]. unfold one_line in *. rewrite forallb_app, Hcur.
    cbn [forallb]. by rewrite Hc.
Qed.

Lemma splitlines_lines s : forallb one_line (splitlines s) = true.
Proof. by apply (splitlines_aux_lines (length s)). Qed.

Lemma forallb_removelast {A} (f : A -> bool) (l : list A) :
  forallb f l = true -> forallb f (removelast l) = true.
Proof.
  induction l as [|a l IH]; [done|]. cbn [forallb]. intros H.
  apply andb_prop in H as [Ha Hl]. destruct l as [|b l]; [done|].
  change (removelast (a :: b :: l)) with (a :: removelast (b :: l)).
  cbn [forallb]. by rewrite Ha, IH.
Qed.

Lemma remove_fences_lines lines :
  forallb one_line lines = true -> forallb one_line (remove_fences lines) = true.
Proof.
  intros Hl. unfold remove_fences.
  set (ls := match lines with
             | [] => lines
             | first :: others =>
                 if eqs (strip first) (py "```markdown") then others else lines
             end).
  assert (Hls : forallb one_line ls = true).
  { unfold ls. destruct lines as [|f o]; [done|].
    destruct (eqs _ _); [|done]. cbn [forallb] in Hl.
    by apply andb_prop in Hl as [_ Hl]. }
  destruct ls as [|x xs]; [done|].
  destruct (eqs _ _); [|done]. by apply forallb_removelast.
Qed.

(** Between reading the Markdown file and rendering, the text is split into
    lines, freed of its fences, joined and split again: the lines that are
    rendered are the lines of the file without the fences, and without the
    last of them when that one is empty. *)
Theorem markdown_lines_are_unfenced_lines (md_text : str) :
  markdown_lines md_text
  = let lines := remove_fences (splitlines md_text) in
    match List.last lines [LF] with
    | [] => removelast lines
    | _ :: _ => lines
    end.
Proof.
  unfold markdown_lines. cbn zeta. apply splitlines_of_join_lines.
  apply remove_fences_lines, splitlines_lines.
Qed.

(** ** Files and folders *)

Lemma open_read_files w path :
  w_files (fst (open_read w path)) = w_files w.
Proof. unfold open_read. by destruct (w_files w !! path) as [[?|?]|]. Qed.

(** A run that fails writes no file.  The failures are a file that cannot
    be read, an index out of range in a table and an output folder that does
    not exist; the lines of the Markdown file and the header text are taken
    to be text that a run can hold, so that python-docx refuses none of
    them. *)
Theorem failed_conversion_saves_nothing (E : environ) (md_file docx_file : str)
    (output_path : option str) (w w' : world) (e : exn) :
  (∀ md, w_files w !! md_file = Some (TextFile md) ->
         forallb safe_text (markdown_lines md) = true) ->
  (∀ h, w_files w !! header_path E = Some (TextFile h) ->
        safe_text (strip h) = true) ->
  convert_md_to_docx E md_file docx_file output_path w = (w', Raise e) ->
  w_files w' = w_files w.
Proof.
  intros _ _. unfold convert_md_to_docx.
  pose proof (output_location_files E docx_file output_path w) as Hf.
  destruct (output_location E docx_file output_path w) as [w1 out].
  cbn [fst] in Hf.
  pose proof (open_read_files w1 md_file) as Hf2.
  destruct (open_read w1 md_file) as [w2 r2]. cbn [fst] in Hf2.
  destruct r2 as [md|e2]; [|intros [= <- _]; congruence].
  pose proof (open_read_files w2 (header_path E)) as Hf3.
  destruct (open_read w2 (header_path E)) as [w3 r3]. cbn [fst] in Hf3.
  destruct r3 as [h|e3]; [|intros [= <- _]; congruence].
  destruct (render_lines _); [|intros [= <- _]; congruence].
  unfold save. destruct (folder_exists E w3 out); [done|].
  intros [= <- _]. cbn [w_files]. congruence.
Qed.

Lemma failed_conversion_saves_nothing_witness :
  w_files (World (w_files disk) {[py "/opt/resume/exported_resumes"]}
                 [EvMakedirs (py "/opt/resume/exported_resumes");
                  EvOpen (py "missing.md")])
  = w_files disk.
Proof.
  apply (failed_conversion_saves_nothing posix (py "missing.md") (py "cv.docx")
           None disk _ (FileNotFoundError (py "missing.md"))).
  - intros md Hmd. unfold disk in Hmd. cbn [w_files] in Hmd.
    rewrite lookup_insert_ne, lookup_insert_ne, lookup_empty in Hmd by done.
    discriminate Hmd.
  - intros h Hh. rewrite disk_header in Hh. by injection Hh as <-.
  - unfold convert_md_to_docx. rewrite disk_output.
    unfold makedirs, open_read.
    cbn [disk w_files w_dirs w_log].
    rewrite lookup_insert_ne, lookup_insert_ne, lookup_empty by done.
    rewrite union_empty_r_L. done.
Defined.






(** ** [add_paragraph_with_formatting] *)

(** [add_paragraph_with_formatting] appends one paragraph with the given
    style and alignment that holds the spans of the text, leaves the
    document before it as it was, and returns that paragraph.  The text is
    taken to be text that a run can hold. *)
Theorem add_paragraph_with_formatting_appends (doc : document) (text : str)
    (st : option style) (al : option alignment) :
  safe_text text = true ->
  add_paragraph_with_formatting doc text st al
  = (doc ++ [Par (Paragraph st al false false (spans text))], length doc).
Proof.
  intros _.
  unfold add_paragraph_with_formatting, doc_add_paragraph, empty_paragraph.
  destruct al as [a|]; rewrite !doc_update_last; cbn [on_paragraph];
    unfold set_alignment;
    cbn [p_style p_alignment p_keep_with_next p_bottom_border p_content];
    by rewrite insert_formatted_text_empty.
Qed.

Lemma add_paragraph_with_formatting_appends_witness :
  add_paragraph_with_formatting [Par rule_paragraph] (py "**Ann** Example")
                                (Some Heading1) (Some CENTER)
  = ([Par rule_paragraph]
     ++ [Par (Paragraph (Some Heading1) (Some CENTER) false false
                (spans (py "**Ann** Example")))],
     length [Par rule_paragraph]).
Proof.
  apply (add_paragraph_with_formatting_appends [Par rule_paragraph]
           (py "**Ann** Example") (Some Heading1) (Some CENTER)).
  reflexivity.
Defined.

(** ** [tailor_and_convert.py]: the text of the job listing *)

Lemma drop_while_head {A} (f : A -> bool) (s : list A) c r :
  drop_while f s = c :: r -> f c = false.
Proof.
  induction s as [|a s IH]; [done|]. cbn [drop_while].
  destruct (f a) eqn:Ha; [done|]. by intros [= <- _].
Qed.

Lemma drop_while_snoc {A} (f : A -> bool) (l : list A) c :
  f c = false -> drop_while f (l ++ [c]) = drop_while f l ++ [c].
Proof.
  intros Hc. induction l as [|a l IH]; cbn [app drop_while]; [by rewrite Hc|].
  by destruct (f a).
Qed.

Lemma strip_lstrip (s : str) : drop_while is_space (strip s) = strip s.
Proof.
  unfold strip, rstrip_by, lstrip_by.
  destruct (drop_while is_space s) as [|c a] eqn:Ha; [done|].
  pose proof (drop_while_head _ _ _ _ Ha) as Hc.
  cbn [rev]. rewrite drop_while_snoc by done.
  rewrite rev_app_distr. cbn [rev app drop_while]. by rewrite Hc.
Qed.

Lemma strip_idem (s : str) : strip (strip s) = strip s.
Proof.
  unfold strip at 1. unfold lstrip_by. rewrite strip_lstrip.
  unfold strip, rstrip_by, lstrip_by. by rewrite rev_involutive, drop_while_idem.
Qed.

Lemma forallb_rev {A} (f : A -> bool) (l : list A) :
  forallb f (rev l) = forallb f l.
Proof.
  induction l as [|a l IH]; [done|]. cbn [rev forallb].
  rewrite forallb_app, IH. cbn [forallb]. rewrite andb_true_r. apply andb_comm.
Qed.

Lemma strip_one_line (l : str) : one_line l = true -> one_line (strip l) = true.
Proof.
  unfold one_line, strip, rstrip_by, lstrip_by. intros H.
  rewrite forallb_rev. apply forallb_drop_while. rewrite forallb_rev.
  by apply forallb_drop_while.
Qed.

Lemma nonblank_lines_spec (ls : list str) :
  forallb one_line ls = true ->
  forallb one_line (nonblank_lines ls) = true
  ∧ Forall (λ l, l ≠ [] ∧ strip l = l) (nonblank_lines ls).
Proof.
  unfold nonblank_lines. induction ls as [|l ls IH]; [done|].
  cbn [forallb map]. intros H. apply andb_prop in H as [Hl Hls].
  destruct (IH Hls) as [IH1 IH2].
  destruct (decide (strip l = [])) as [He|Hne].
  - by rewrite filter_cons_False by (intros H; by apply H).
  - rewrite filter_cons_True by done. cbn [forallb].
    rewrite strip_one_line, IH1 by done. split; [done|].
    constructor; [|done]. split; [done | apply strip_idem].
Qed.

Lemma last_nonempty (ls : list str) :
  Forall (λ l, l ≠ []) ls ->
  match List.last ls [LF] with [] => removelast ls | _ :: _ => ls end = ls.
Proof.
  intros H. assert (Hlast : List.last ls [LF] ≠ []).
  { induction H as [|l ls Hl Hls IH]; [done|].
    destruct ls; [done|]. exact IH. }
  by destruct (List.last ls [LF]).
Qed.

Lemma clean_text_splitlines (text : str) :
  splitlines (clean_text text) = nonblank_lines (splitlines text).
Proof.
  unfold clean_text. fold (nonblank_lines (splitlines text)).
  destruct (nonblank_lines_spec _ (splitlines_lines text)) as [Hone Hne].
  rewrite splitlines_of_join_lines by done. apply last_nonempty.
  eapply Forall_impl; [exact Hne|]. by intros l [? _].
Qed.

Lemma nonblank_lines_fixed (ls : list str) :
  Forall (λ l, l ≠ [] ∧ strip l = l) ls -> nonblank_lines ls = ls.
Proof.
  unfold nonblank_lines. induction 1 as [|l ls [Hne Hs] _ IH]; [done|].
  cbn [map]. rewrite Hs, filter_cons_True by done. by rewrite IH.
Qed.

(** The lines of the cleaned text are the lines of the page text, stripped,
    without the blank ones: no line of it is empty and none begins or ends
    with whitespace. *)
Theorem clean_text_has_stripped_nonblank_lines (text : str) :
  splitlines (clean_text text) = nonblank_lines (splitlines text)
  ∧ Forall (λ l, l ≠ [] ∧ strip l = l) (splitlines (clean_text text)).
Proof.
  rewrite clean_text_splitlines. split; [done|].
  apply nonblank_lines_spec, splitlines_lines.
Qed.

(** Cleaning is idempotent: a text that has been cleaned is left as it is by
    cleaning it again. *)
Theorem clean_text_idempotent (text : str) :
  clean_text (clean_text text) = clean_text text.
Proof.
  unfold clean_text at 1. fold (nonblank_lines (splitlines (clean_text text))).
  rewrite clean_text_splitlines.
  rewrite nonblank_lines_fixed by apply nonblank_lines_spec, splitlines_lines.
  done.
Qed.

(** ** [tailor_and_convert.py]: the name of the backup file *)

Lemma join_with_cons sep p (ps : list str) :
  ps ≠ [] -> join_with sep (p :: ps) = p ++ sep :: join_with sep ps.
Proof. by destruct ps. Qed.

Lemma split_on_nonempty sep (s : str) : split_on sep s ≠ [].
Proof.
  pose proof (split_on_length sep s) as H. destruct (split_on sep s); [simpl in H; lia|done].
Qed.

(** Splitting at a character and joining with it gives the text back. *)
Lemma join_split_on sep (s : str) : join_with sep (split_on sep s) = s.
Proof.
  induction s as [|c s IH]; [done|]. cbn [split_on].
  destruct (eqc sep c) eqn:Hc.
  - apply Ascii.eqb_eq in Hc. subst c.
    rewrite join_with_cons by apply split_on_nonempty. by rewrite IH.
  - pose proof (split_on_nonempty sep s) as Hne.
    destruct (split_on sep s) as [|f fs]; [done|].
    destruct fs as [|f2 fs]; cbn [join_with] in *; by rewrite <- IH.
Qed.

Lemma join_with_snoc sep (l : list str) x :
  l ≠ [] -> join_with sep (l ++ [x]) = join_with sep l ++ sep :: x.
Proof.
  induction l as [|p l IH]; [done|]. intros _.
  destruct l as [|q l]; [done|].
  change ((p :: q :: l) ++ [x]) with (p :: ((q :: l) ++ [x])).
  rewrite join_with_cons by (by destruct l).
  rewrite IH by done. rewrite (join_with_cons sep p (q :: l)) by done.
  by rewrite <- app_assoc, <- app_comm_cons.
Qed.

Lemma split_on_fields sep (s : str) :
  Forall (λ f, forallb (λ c, negb (eqc sep c)) f = true) (split_on sep s).
Proof.
  induction s as [|c s IH]; [by constructor|]. cbn [split_on].
  destruct (eqc sep c) eqn:Hc; [by constructor|].
  destruct (split_on sep s) as [|f fs]; [constructor; [|done]; cbn; by rewrite Hc|].
  apply Forall_cons in IH as [Hf Hfs]. constructor; [|done].
  cbn [forallb]. by rewrite Hc, Hf.
Qed.

Lemma split_on_single sep (s : str) :
  length (split_on sep s) <= 1 -> existsb (eqc sep) s = false.
Proof.
  induction s as [|c s IH]; [done|]. cbn [split_on existsb].
  destruct (eqc sep c) eqn:Hc.
  - pose proof (split_on_length sep s). cbn [length]. lia.
  - destruct (split_on sep s) as [|f fs] eqn:Hs; cbn [length] in *;
      intros H; apply IH; lia.
Qed.

(** The parts of a name with more than one part: what is before the last
    dot, and the extension after it. *)
Lemma name_parts (name : str) :
  let parts := split_on "."%char name in
  1 < length parts ->
  name = join_with "."%char (removelast parts) ++ py "." ++ List.last parts []
  ∧ forallb (λ c, negb (eqc "." c)) (List.last parts []) = true.
Proof.
  cbn zeta. intros Hlen.
  pose proof (join_split_on "." name) as Hjoin.
  pose proof (split_on_fields "." name) as Hfields.
  set (parts := split_on "."%char name) in *.
  assert (Hne : parts ≠ []) by (destruct parts; [simpl in Hlen; lia|done]).
  pose proof (app_removelast_last [] Hne) as Hparts.
  assert (Hrl : removelast parts ≠ []).
  { destruct parts as [|a [|b ps]]; simpl in Hlen; [lia|lia|done]. }
  split.
  - rewrite <- Hjoin at 1. rewrite Hparts at 1. by rewrite join_with_snoc.
  - rewrite Hparts in Hfields. apply Forall_app in Hfields as [_ Hl].
    by apply Forall_cons in Hl as [Hl _].
Qed.

(** When a backup exists already, the new backup gets a stamp of the date
    and random letters: before the extension for a name with a dot
    ([stem.ext] becomes [stem.date_letters.ext.bak], the extension being what
    follows the last dot), at the end for a name without
    ([name.date_letters.bak]). *)
Theorem backup_filename_is_stamped (original_filename date_str random_letters : str) :
  let stamp := date_str ++ py "_" ++ random_letters in
  if existsb (eqc "."%char) original_filename
  then ∃ stem ext,
         original_filename = stem ++ py "." ++ ext
         ∧ forallb (λ c, negb (eqc "." c)) ext = true
         ∧ backup_filename original_filename true date_str random_letters
           = stem ++ py "." ++ stamp ++ py "." ++ ext ++ py ".bak"
  else backup_filename original_filename true date_str random_letters
       = original_filename ++ py "." ++ stamp ++ py ".bak".
Proof.
  cbn zeta. unfold backup_filename.
  destruct (1 <? length (split_on "." original_filename)) eqn:Hlen.
  - apply Nat.ltb_lt in Hlen. destruct (name_parts original_filename Hlen) as [Hname Hext].
    assert (Hdot : existsb (eqc ".") original_filename = true).
    { rewrite Hname at 1. rewrite existsb_app. cbn [py list_ascii_of_string app existsb].
      by rewrite orb_true_r. }
    rewrite Hdot. eexists _, _. split; [exact Hname|]. split; [exact Hext|].
    by rewrite <- !app_assoc.
  - apply Nat.ltb_ge in Hlen. rewrite (split_on_single _ _ Hlen).
    by rewrite <- !app_assoc.
Qed.

Lemma backup_filename_length (name date_str random_letters : str) :
  length (backup_filename name true date_str random_letters)
  = length name + length date_str + length random_letters + 6.
Proof.
  unfold backup_filename.
  destruct (1 <? length (split_on "." name)) eqn:Hlen.
  - apply Nat.ltb_lt in Hlen. destruct (name_parts name Hlen) as [Hname _].
    apply (f_equal length) in Hname. rewrite !length_app in Hname.
    rewrite !length_app. simpl in *. lia.
  - rewrite !length_app. simpl. lia.
Qed.

(** The stamped name is never the plain backup name [name.bak]: a backup
    that exists under the plain name is not the one the new backup is
    written to.  With or without stamp the name ends in [.bak]. *)
Theorem backup_filename_is_fresh (original_filename date_str random_letters : str)
    (taken : bool) :
  backup_filename original_filename true date_str random_letters
  ≠ backup_filename original_filename false date_str random_letters
  ∧ ∃ name, backup_filename original_filename taken date_str random_letters
            = name ++ py ".bak".
Proof.
  split.
  - intros H. apply (f_equal length) in H. rewrite backup_filename_length in H.
    unfold backup_filename in H. rewrite length_app in H. simpl in H. lia.
  - unfold backup_filename. destruct taken; [|by eexists].
    destruct (1 <? _).
    + eexists. by rewrite !app_assoc.
    + eexists. by rewrite !app_assoc.
Qed.

(* ================================================================== *)
(** * The inline formatter against the scan of the specification *)
(* ================================================================== *)

(** ** The non-greedy quantifier *)

Lemma dot_plus_lazy_first close r k :
  dot_plus_lazy close r = Some k ->
  0 < k ∧ k <= length r
  ∧ forallb (λ c, negb (is_newline c)) (take k r) = true
  ∧ startswith close (drop k r) = true
  ∧ ∀ j, 0 < j < k -> startswith close (drop j r) = false.
Proof.
  revert k. induction r as [|c r IH]; intros k; cbn [dot_plus_lazy]; [done|].
  destruct (is_newline c) eqn:Hc; [done|].
  destruct (startswith close r) eqn:Hs.
  - intros [= <-]. cbn [take drop forallb length]. rewrite Hc.
    split; [lia|]. split; [lia|]. split; [by rewrite take_0|].
    split; [by rewrite drop_0|]. intros j Hj. lia.
  - destruct (dot_plus_lazy close r) as [k'|]; [|done].
    cbn [fmap option_fmap option_map]. intros [= <-].
    destruct (IH k' eq_refl) as (H0 & Hlen & Hall & Hclose & Hmin).
    cbn [take drop forallb length]. rewrite Hc.
    split; [lia|]. split; [lia|]. split; [done|]. split; [done|].
    intros [|[|j]] Hj; [lia | exact Hs |]. cbn [drop]. apply (Hmin (S j)). lia.
Qed.

Lemma dot_plus_lazy_found close r : ∀ k,
  0 < k -> k <= length r ->
  forallb (λ c, negb (is_newline c)) (take k r) = true ->
  startswith close (drop k r) = true ->
  (∀ j, 0 < j < k -> startswith close (drop j r) = false) ->
  dot_plus_lazy close r = Some k.
Proof.
  induction r as [|c r IH]; intros k Hk Hlen Hall Hclose Hmin.
  { simpl in Hlen. lia. }
  destruct k as [|k]; [lia|]. cbn [take forallb] in Hall.
  apply andb_prop in Hall as [Hc Hall]. apply negb_true_iff in Hc.
  cbn [dot_plus_lazy]. rewrite Hc. cbn [drop] in Hclose.
  destruct k as [|k].
  - rewrite drop_0 in Hclose. by rewrite Hclose.
  - pose proof (Hmin 1 ltac:(lia)) as H1. cbn [drop] in H1. rewrite drop_0 in H1.
    rewrite H1. rewrite (IH (S k)); [done | lia | simpl in Hlen; lia | done | done |].
    intros j Hj. apply (Hmin (S j)). lia.
Qed.

Lemma encloses_markup opening close t s :
  encloses opening close t s ->
  s = (opening ++ t ++ close) ++ drop (length (opening ++ t ++ close)) s.
Proof.
  intros ([rest Hs] & _).
  assert (Hs' : s = (opening ++ t ++ close) ++ rest)
    by (by rewrite Hs, <- !app_assoc).
  rewrite Hs' at 2. rewrite drop_app_length. exact Hs'.
Qed.

Lemma encloses_found opening close t s :
  encloses opening close t s ->
  startswith opening s = true
  ∧ dot_plus_lazy close (drop (length opening) s) = Some (length t)
  ∧ take (length t) (drop (length opening) s) = t.
Proof.
  intros ([rest Hs] & Hne & Hall & Hmin).
  assert (Hr : drop (length opening) s = t ++ close ++ rest)
    by (rewrite Hs; apply drop_app_length).
  split; [rewrite Hs; apply startswith_self_app|].
  rewrite Hr. split; [|apply take_app_length].
  apply dot_plus_lazy_found.
  - destruct t; [done | simpl; lia].
  - rewrite length_app. lia.
  - by rewrite take_app_length.
  - rewrite drop_app_length. apply startswith_self_app.
  - intros j Hj.
    destruct (startswith close (drop j (t ++ close ++ rest))) eqn:Hsw; [|done].
    exfalso. apply startswith_app in Hsw.
    assert (Hle : length t <= length (take j t)).
    { apply (Hmin (take j t) (drop (length close) (drop j (t ++ close ++ rest)))).
      - rewrite Hs. f_equal. rewrite <- Hsw.
        rewrite <- (take_drop j (t ++ close ++ rest)) at 1. f_equal.
        by rewrite take_app_le by lia.
      - intros Hnil. apply (f_equal length) in Hnil.
        rewrite length_take in Hnil. simpl in Hnil. lia. }
    rewrite length_take in Hle. lia.
Qed.

Lemma found_encloses opening close s k :
  startswith opening s = true ->
  dot_plus_lazy close (drop (length opening) s) = Some k ->
  encloses opening close (take k (drop (length opening) s)) s
  ∧ length (take k (drop (length opening) s)) = k.
Proof.
  intros Ho Hk. apply startswith_app in Ho.
  destruct (dot_plus_lazy_first _ _ _ Hk) as (H0 & Hlen & Hall & Hclose & Hmin).
  set (r := drop (length opening) s) in *.
  assert (Ht : length (take k r) = k) by (rewrite length_take; lia).
  split; [|done]. apply startswith_app in Hclose.
  split; [|split; [|split]].
  - exists (drop (length close) (drop k r)). by rewrite <- Hclose, take_drop.
  - intros Hn. rewrite Hn in Ht. simpl in Ht. lia.
  - done.
  - intros t1 rest1 Hs Hne1. rewrite Ht.
    destruct (decide (length t1 < k)) as [Hlt|]; [|lia]. exfalso.
    assert (Hr : r = t1 ++ close ++ rest1).
    { unfold r. rewrite Hs. apply drop_app_length. }
    assert (0 < length t1) by (destruct t1; [done | simpl; lia]).
    pose proof (Hmin (length t1) ltac:(lia)) as Hf.
    rewrite Hr, drop_app_length, startswith_self_app in Hf. done.
Qed.

Lemma not_char_plus_class x close r k :
  not_char_plus x close r = Some k ->
  forallb (λ c, negb (eqc x c)) (take k r) = true.
Proof.
  unfold not_char_plus.
  destruct (take_while (λ c, negb (eqc x c)) r) as [|c t] eqn:Ht; [done|].
  destruct (startswith close _); [|done]. intros [= <-].
  change (S (length t)) with (length (c :: t)).
  rewrite <- Ht, take_while_length. apply take_while_forallb.
Qed.

(** ** The pattern at one position is the span that starts there *)

Lemma bold_at_encloses s g len :
  bold_at s = Some (g, len) ->
  ∃ t, encloses (py "**") (py "**") t s
       ∧ g = Groups (Some t) None None None ∧ len = 2 + length t + 2.
Proof.
  unfold bold_at. destruct (startswith (py "**") s) eqn:Ho; [|done].
  destruct (dot_plus_lazy (py "**") (drop 2 s)) as [k|] eqn:Hk; [|done].
  intros [= <- <-].
  destruct (found_encloses (py "**") (py "**") s k Ho Hk) as [Henc Hlen].
  exists (take k (drop 2 s)). change (length (py "**")) with 2 in *.
  by rewrite Hlen.
Qed.

Lemma encloses_bold_at s t :
  encloses (py "**") (py "**") t s ->
  bold_at s = Some (Groups (Some t) None None None, 2 + length t + 2).
Proof.
  intros Henc. destruct (encloses_found _ _ _ _ Henc) as (Ho & Hk & Ht).
  unfold bold_at. rewrite Ho. change (length (py "**")) with 2 in Hk, Ht.
  by rewrite Hk, Ht.
Qed.

Lemma italic_at_encloses s g len :
  italic_at s = Some (g, len) ->
  ∃ t, encloses (py "*") (py "*") t s
       ∧ g = Groups None (Some t) None None ∧ len = 1 + length t + 1.
Proof.
  unfold italic_at. destruct (startswith (py "*") s) eqn:Ho; [|done].
  destruct (dot_plus_lazy (py "*") (drop 1 s)) as [k|] eqn:Hk; [|done].
  intros [= <- <-].
  destruct (found_encloses (py "*") (py "*") s k Ho Hk) as [Henc Hlen].
  exists (take k (drop 1 s)). change (length (py "*")) with 1 in *.
  by rewrite Hlen.
Qed.

Lemma encloses_italic_at s t :
  encloses (py "*") (py "*") t s ->
  italic_at s = Some (Groups None (Some t) None None, 1 + length t + 1).
Proof.
  intros Henc. destruct (encloses_found _ _ _ _ Henc) as (Ho & Hk & Ht).
  unfold italic_at. rewrite Ho. change (length (py "*")) with 1 in Hk, Ht.
  by rewrite Hk, Ht.
Qed.

Lemma link_at_link s g len :
  link_at s = Some (g, len) ->
  ∃ t url rest,
    s = py "[" ++ t ++ py "](" ++ url ++ py ")" ++ rest
    ∧ t ≠ [] ∧ forallb (λ c, negb (eqc "]" c)) t = true
    ∧ url ≠ [] ∧ forallb (λ c, negb (eqc ")" c)) url = true
    ∧ g = Groups None None (Some t) (Some url)
    ∧ len = 1 + length t + 2 + length url + 1.
Proof.
  unfold link_at. destruct (startswith (py "[") s) eqn:Ho; [|done].
  destruct (not_char_plus "]" (py "](") (drop 1 s)) as [k|] eqn:Hk; [|done].
  destruct (not_char_plus ")" (py ")") (drop (k + 2) (drop 1 s))) as [j|] eqn:Hj;
    [|done].
  intros [= <- <-].
  pose proof (not_char_plus_class _ _ _ _ Hk) as Hkc.
  pose proof (not_char_plus_class _ _ _ _ Hj) as Hjc.
  apply not_char_plus_spec in Hk. apply not_char_plus_spec in Hj.
  destruct Hk as (Hk0 & Hk & Hkl). destruct Hj as (Hj0 & Hj & Hjl).
  apply startswith_app in Ho. cbn [length py list_ascii_of_string] in *.
  set (r := drop 1 s) in *. set (r2 := drop (k + 2) r) in *.
  assert (Ht : length (take k r) = k) by (rewrite length_take; lia).
  assert (Hu : length (take j r2) = j) by (rewrite length_take; lia).
  exists (take k r), (take j r2), (drop (j + 1) r2).
  split; [|split; [|split; [|split; [|split; [|split]]]]]; try done.
  - rewrite Ho at 1. f_equal. rewrite Hk at 1. f_equal.
    change (?a :: ?b :: ?l) with ([a; b] ++ l). f_equal.
    fold r2. exact Hj.
  - intros Hn. rewrite Hn in Ht. simpl in Ht. lia.
  - intros Hn. rewrite Hn in Hu. simpl in Hu. lia.
  - by rewrite Ht, Hu.
Qed.

Lemma link_link_at s t url rest :
  s = py "[" ++ t ++ py "](" ++ url ++ py ")" ++ rest ->
  t ≠ [] -> forallb (λ c, negb (eqc "]" c)) t = true ->
  url ≠ [] -> forallb (λ c, negb (eqc ")" c)) url = true ->
  bold_at s = None ∧ italic_at s = None
  ∧ link_at s = Some (Groups None None (Some t) (Some url),
                      1 + length t + 2 + length url + 1).
Proof.
  intros -> Hne Ht Hune Hu. split; [done|]. split; [done|].
  unfold link_at. rewrite startswith_self_app.
  change (drop 1 (py "[" ++ t ++ py "](" ++ url ++ py ")" ++ rest))
    with (t ++ py "](" ++ url ++ py ")" ++ rest).
  rewrite not_char_plus_free by (try done; by destruct t).
  replace (drop (length t + 2) (t ++ py "](" ++ url ++ py ")" ++ rest))
    with (url ++ py ")" ++ rest)
    by (rewrite <- drop_drop, drop_app_length; done).
  rewrite not_char_plus_free by (try done; by destruct url).
  by rewrite !take_app_length.
Qed.

(** Soundness: a match of the pattern is a span of the specification. *)
Lemma pattern_at_span s g len :
  pattern_at s = Some (g, len) ->
  ∃ x, span_at s x
       ∧ match_span g = Some (render_span x)
       ∧ s = span_markup x ++ drop len s
       ∧ len = length (span_markup x)
       ∧ 0 < len.
Proof.
  unfold pattern_at.
  destruct (bold_at s) as [[g1 l1]|] eqn:Hb.
  { intros [= -> ->]. destruct (bold_at_encloses _ _ _ Hb) as (t & Henc & -> & ->).
    exists (Bold t). split; [by constructor|].
    pose proof (encloses_markup _ _ _ _ Henc) as Hs.
    destruct Henc as (_ & Hne & _).
    split; [by destruct t|]. cbn [span_markup].
    assert (Hlen : 2 + length t + 2 = length (py "**" ++ t ++ py "**"))
      by (rewrite !length_app; simpl; lia).
    rewrite Hlen. split; [exact Hs|]. split; [done | lia]. }
  destruct (italic_at s) as [[g1 l1]|] eqn:Hi.
  { intros [= -> ->]. destruct (italic_at_encloses _ _ _ Hi) as (t & Henc & -> & ->).
    exists (Italic t). split.
    { constructor; [|done]. intros b Hbe.
      apply encloses_bold_at in Hbe. congruence. }
    pose proof (encloses_markup _ _ _ _ Henc) as Hs.
    destruct Henc as (_ & Hne & _).
    split; [by destruct t|]. cbn [span_markup].
    assert (Hlen : 1 + length t + 1 = length (py "*" ++ t ++ py "*"))
      by (rewrite !length_app; simpl; lia).
    rewrite Hlen. split; [exact Hs|]. split; [done | lia]. }
  intros Hl.
  destruct (link_at_link _ _ _ Hl)
    as (t & url & rest & Hs & Hne & Ht & Hune & Hu & -> & ->).
  exists (Link t url). split; [by econstructor|].
  split; [by destruct t|]. cbn [span_markup].
  assert (Hlen : 1 + length t + 2 + length url + 1
                 = length (py "[" ++ t ++ py "](" ++ url ++ py ")"))
    by (rewrite !length_app; simpl; lia).
  rewrite Hlen. split; [|split; [done | lia]].
  assert (Hs' : s = (py "[" ++ t ++ py "](" ++ url ++ py ")") ++ rest)
    by (by rewrite Hs, <- !app_assoc).
  rewrite Hs' at 2. rewrite drop_app_length. exact Hs'.
Qed.

(** Completeness: a span of the specification is matched by the pattern. *)
Lemma span_at_pattern s x :
  span_at s x ->
  ∃ g, pattern_at s = Some (g, length (span_markup x))
       ∧ match_span g = Some (render_span x).
Proof.
  intros [t Ht | t Hnb Ht | t url rest Hs Hne Ht Hune Hu]; unfold pattern_at.
  - rewrite (encloses_bold_at _ _ Ht). eexists. split.
    + do 2 f_equal. cbn [span_markup]. rewrite !length_app. simpl. lia.
    + destruct Ht as (_ & Hne & _). by destruct t.
  - destruct (bold_at s) as [[g1 l1]|] eqn:Hb.
    { destruct (bold_at_encloses _ _ _ Hb) as (b & Hbe & _). by destruct (Hnb b). }
    rewrite (encloses_italic_at _ _ Ht). eexists. split.
    + do 2 f_equal. cbn [span_markup]. rewrite !length_app. simpl. lia.
    + destruct Ht as (_ & Hne & _). by destruct t.
  - destruct (link_link_at s t url rest Hs Hne Ht Hune Hu) as (-> & -> & ->).
    eexists. split.
    + do 2 f_equal. cbn [span_markup]. rewrite !length_app. simpl. lia.
    + by destruct t.
Qed.

Lemma pattern_at_none s x : pattern_at s = None -> ¬ span_at s x.
Proof.
  intros Hn Hx. destruct (span_at_pattern s x Hx) as (g & Hp & _). congruence.
Qed.

Lemma plain_until_pattern k s j :
  plain_until k s -> j < k -> pattern_at (drop j s) = None.
Proof.
  intros Hp Hj. destruct (pattern_at (drop j s)) as [[g len]|] eqn:Hm; [|done].
  destruct (pattern_at_span _ _ _ Hm) as (x & Hx & _). by destruct (Hp j x Hj).
Qed.

(** ** The scan of [finditer] is the scan of the specification *)

Lemma finditer_aux_plain_until before : ∀ s i,
  plain_until (length before) (before ++ s) ->
  finditer_aux (before ++ s) i 0 = finditer_aux s (i + length before) 0.
Proof.
  induction before as [|c before IH]; intros s i Hp.
  { simpl. by rewrite Nat.add_0_r. }
  pose proof (plain_until_pattern _ _ 0 Hp ltac:(simpl; lia)) as H0.
  rewrite drop_0 in H0. cbn [app finditer_aux]. cbn [app] in H0. rewrite H0.
  rewrite IH.
  - f_equal. simpl. lia.
  - intros j x Hj. apply (Hp (S j) x). simpl. lia.
Qed.

Lemma scanned_loop s xs :
  scanned s xs ->
  ∀ pre : str,
    let text := pre ++ s in
    let ms := finditer_aux s (length pre) 0 in
    loop_items text ms (length pre) ++ tail_items text (loop_pos ms (length pre))
    = map render_span xs.
Proof.
  induction 1 as [line Hp | before x rest xs Hp Hx Hrest IH]; intros pre; cbn zeta.
  - pose proof (finditer_aux_plain_until line [] (length pre)) as Hf.
    rewrite app_nil_r in Hf. rewrite (Hf Hp).
    cbn [finditer_aux loop_items loop_pos app]. unfold tail_items.
    rewrite length_app, drop_app_length.
    destruct line as [|c line].
    + simpl. by rewrite Nat.add_0_r, Nat.ltb_irrefl.
    + replace (length pre <? length pre + length (c :: line)) with true
        by (symmetry; apply Nat.ltb_lt; simpl; lia).
      done.
  - rewrite (finditer_aux_plain_until before _ _ Hp).
    destruct (span_at_pattern _ _ Hx) as (g & Hpat & Hspan).
    assert (Hlen : 0 < length (span_markup x)).
    { destruct (pattern_at_span _ _ _ Hpat) as (_ & _ & _ & _ & _ & H0). exact H0. }
    rewrite (finditer_aux_match _ _ _ _ Hpat Hlen), drop_app_length.
    cbn [loop_items loop_pos m_end]. unfold match_items. cbn [m_start m_groups].
    rewrite Hspan.
    pose proof (IH (pre ++ before ++ span_markup x)) as IH'. cbn zeta in IH'.
    rewrite !length_app in IH'. rewrite <- !app_assoc in IH'.
    rewrite Nat.add_assoc in IH'.
    rewrite <- !app_assoc. rewrite IH'.
    destruct before as [|c before].
    + simpl. by rewrite Nat.add_0_r, Nat.ltb_irrefl.
    + replace (length pre <? length pre + length (c :: before)) with true
        by (symmetry; apply Nat.ltb_lt; simpl; lia).
      cbn [app map]. do 2 f_equal. unfold slice.
      rewrite drop_app_length.
      replace (length pre + length (c :: before) - length pre)
        with (length (c :: before)) by lia.
      change (c :: before ++ span_markup x ++ rest)
        with ((c :: before) ++ span_markup x ++ rest).
      by rewrite take_app_length.
Qed.

Lemma scanned_spans line xs : scanned line xs -> spans line = map render_span xs.
Proof.
  intros H. rewrite spans_format. unfold format_spans, finditer.
  apply (scanned_loop line xs H []).
Qed.

Lemma scanned_line line xs : scanned line xs -> line_of_spans xs = line.
Proof.
  induction 1 as [line Hp | before x rest xs Hp Hx Hrest IH].
  - destruct line; [done|]. unfold line_of_spans. simpl. by rewrite app_nil_r.
  - destruct before; unfold line_of_spans in *; cbn [map concat span_markup app];
      by rewrite IH.
Qed.

(** Every line has a scan. *)
Lemma scanned_exists n : ∀ before s : str,
  length s <= n ->
  plain_until (length before) (before ++ s) ->
  ∃ xs, scanned (before ++ s) xs.
Proof.
  induction n as [|n IH]; intros before s Hn Hp.
  { destruct s; [|simpl in Hn; lia]. rewrite app_nil_r in *.
    eexists. by apply scanned_end. }
  destruct s as [|c s].
  { rewrite app_nil_r in *. eexists. by apply scanned_end. }
  destruct (pattern_at (c :: s)) as [[g len]|] eqn:Hpat.
  - destruct (pattern_at_span _ _ _ Hpat) as (x & Hx & _ & Hs & Hlen & H0).
    set (rest := drop len (c :: s)) in *.
    assert (Hle : length rest <= n).
    { unfold rest. rewrite length_drop. simpl in *. lia. }
    destruct (IH [] rest Hle) as [xs Hxs].
    { intros j y Hj. simpl in Hj. lia. }
    rewrite Hs. rewrite Hs in Hp, Hx. eexists. apply scanned_span; eauto.
  - replace (before ++ c :: s) with ((before ++ [c]) ++ s) in *
      by (by rewrite <- app_assoc).
    apply IH; [simpl in Hn; lia|].
    intros j y Hj. rewrite length_app in Hj. simpl in Hj.
    destruct (decide (j < length before)) as [Hlt|Hge]; [by apply Hp|].
    assert (j = length before) as -> by lia.
    rewrite <- app_assoc, drop_app_length. by apply pattern_at_none.
Qed.

Lemma render_span_inj x y : render_span x = render_span y -> x = y.
Proof. destruct x, y; cbn; intros [=]; by subst. Qed.

Lemma map_render_span_inj xs : ∀ ys,
  map render_span xs = map render_span ys -> xs = ys.
Proof.
  induction xs as [|x xs IH]; intros [|y ys]; cbn [map]; try done.
  intros [= Hxy Hrest]. f_equal; [by apply render_span_inj | by apply IH].
Qed.

Lemma visible_text_render xs :
  visible_text (map render_span xs) = concat (map span_text xs).
Proof.
  unfold visible_text. rewrite map_map. f_equal. apply map_ext. by intros [].
Qed.

(** C1 (amended): for a line that a run can hold, the spans of the inline
    formatter are the spans of the scan that the specification describes,
    and there is one such scan only: bold [**...**], italic [*...*] and
    link [[display](target)] matches, taken from left to right with bold
    tried before italic and italic before link, the text between and after
    the matches as plain text.  So the line is the spans with their markup
    put back, and the concatenated text of the spans is the line with the
    markup of the matches removed: the [**] pairs, the [*] pairs, and for a
    link the [[] and the [](target)], the target going with the punctuation.
    A delimiter that belongs to no match, such as a lone [*], stays. *)
Theorem spans_are_line_without_markup (line : str) :
  safe_text line = true ->
  ∃ xs : list span,
    scanned line xs
    ∧ (∀ ys, scanned line ys -> ys = xs)
    ∧ spans line = map render_span xs
    ∧ line_of_spans xs = line
    ∧ visible_text (spans line) = concat (map span_text xs)
    ∧ removes_only markup line (visible_text (spans line)).
Proof.
  intros _.
  destruct (scanned_exists (length line) [] line (le_n _)) as [xs Hxs].
  { intros j y Hj. simpl in Hj. lia. }
  cbn [app] in Hxs. exists xs. split; [done|].
  pose proof (scanned_spans line xs Hxs) as Hspans.
  split; [|split; [done|split; [|split]]].
  - intros ys Hys. apply scanned_spans in Hys. rewrite Hspans in Hys.
    symmetry. by apply map_render_span_inj.
  - by apply scanned_line.
  - rewrite Hspans. apply visible_text_render.
  - exists (flat_map pieces (spans line)). rewrite spans_format.
    split; [apply format_spans_source|].
    split; [apply flat_pieces_markup | apply flat_pieces_kept].
Qed.

Lemma spans_are_line_without_markup_witness :
  ∃ xs : list span,
    scanned (py "price *was* $5 * up") xs
    ∧ (∀ ys, scanned (py "price *was* $5 * up") ys -> ys = xs)
    ∧ spans (py "price *was* $5 * up") = map render_span xs
    ∧ line_of_spans xs = py "price *was* $5 * up"
    ∧ visible_text (spans (py "price *was* $5 * up")) = concat (map span_text xs)
    ∧ removes_only markup (py "price *was* $5 * up")
                   (visible_text (spans (py "price *was* $5 * up"))).
Proof.
  apply (spans_are_line_without_markup (py "price *was* $5 * up")). reflexivity.
Defined.

(** ** Saving into a folder that does not exist *)

(** When no output folder is given and the name of the document comes with
    a folder, [convert_md_to_docx] does not create that folder: if it does
    not exist, the run reads both files, renders the text and then ends in
    the FileNotFoundError of [doc.save]; no file is written and no message
    is printed.  The lines of the Markdown file and the header text are
    taken to be text that a run can hold, and no file has the name of the
    missing folder. *)
Theorem save_into_missing_folder_raises (E : environ) (md_file docx_file : str)
    (w : world) (md h : str) (body : document) :
  dirname E docx_file ≠ [] ->
  folder_exists E w (abspath E docx_file) = false ->
  w_files w !! dirname E (abspath E docx_file) = None ->
  w_files w !! md_file = Some (TextFile md) ->
  w_files w !! header_path E = Some (TextFile h) ->
  forallb safe_text (markdown_lines md) = true ->
  safe_text (strip h) = true ->
  render_lines (markdown_lines md) = Ok body ->
  convert_md_to_docx E md_file docx_file None w
  = (World (w_files w) (w_dirs w)
           (w_log w ++ [EvOpen md_file; EvOpen (header_path E);
                        EvSave (abspath E docx_file)]),
     Raise (FileNotFoundError (abspath E docx_file))).
Proof.
  intros Hdir Hfolder _ Hmd Hh _ _ Hbody.
  rewrite (convert_md_to_docx_run E md_file docx_file None w md h body) by done.
  unfold output_location. destruct (dirname E docx_file) as [|c d]; [done|].
  by rewrite Hfolder, <- app_assoc.
Qed.

Lemma save_into_missing_folder_raises_witness :
  convert_md_to_docx posix (py "cv.md") (py "sub/cv.docx") None disk
  = (World (w_files disk) (w_dirs disk)
           (w_log disk ++ [EvOpen (py "cv.md"); EvOpen (header_path posix);
                           EvSave (abspath posix (py "sub/cv.docx"))]),
     Raise (FileNotFoundError (abspath posix (py "sub/cv.docx")))).
Proof.
  apply (save_into_missing_folder_raises posix (py "cv.md") (py "sub/cv.docx") disk
           (py "# Ann" ++ [LF] ++ py "---" ++ [LF] ++ py "Text") (py "Ann *CV*")
           [Par (Paragraph (Some Heading1) (Some CENTER) false false
                   [plain_run (py "Ann")]);
            Par rule_paragraph;
            text_paragraph (py "Text")]).
  - change (dirname posix (py "sub/cv.docx")) with (py "sub"). done.
  - unfold folder_exists.
    change (dirname posix (abspath posix (py "sub/cv.docx")))
      with (py "/home/ann/sub").
    cbn [py list_ascii_of_string]. apply bool_decide_eq_false_2.
    unfold disk. cbn [w_dirs]. set_solver.
  - change (dirname posix (abspath posix (py "sub/cv.docx")))
      with (py "/home/ann/sub").
    unfold disk. cbn [w_files].
    by rewrite lookup_insert_ne, lookup_insert_ne, lookup_empty by done.
  - exact disk_resume.
  - exact disk_header.
  - reflexivity.
  - reflexivity.
  - vm_compute. reflexivity.
Defined.
